(** * Self-consistency evaluation: evaluator and accuracy reporter

    A shallow embedding of [self_consistency.py] and [accuracy.py], and the
    properties of their specification.

    - Numbers. A Python [int] is a [Z]. A Python [float] is an IEEE 754
      binary64 number with rounding to nearest, ties to even; it is modelled
      by the executable specification [SpecFloat] of the standard library at
      precision 53 and maximal exponent 1024. Decimal literals, [float(s)]
      and [int / int] round the exact quotient once.
    - Text. A text is a [string] of characters with code points below 256,
      among which [\d] is the class ['0'..'9'].
    - State. A [world] holds the environment as [os.environ] shows it once
      [load_dotenv()] has run, the files of the working directory, the lines
      printed so far and the requests sent to the completion service so far.
      Code that may raise runs in a state-and-exception monad [M].
    - Libraries. The completion service and the constructor of its client
      are parameters. A file written by [json.dump] holds the value that
      [json.load] gives back, so its content is that value. A figure saved by
      the plotting library is the data it was given. *)

From Stdlib Require Import ZArith Lia List Ascii String DecimalString.
From Stdlib Require Import Floats.SpecFloat.
From stdpp Require Import base option list strings gmap.

Set Warnings "-register-all".

Open Scope string_scope.
Open Scope Z_scope.

#[local] Arguments String.append !s1 s2 : simpl nomatch.

(** ** Exceptions and fallible values *)

Inductive exn : Type :=
  | ValueError
  | OverflowError
  | ZeroDivisionError
  | IndexError
  | KeyError
  | TypeError
  | FileNotFoundError
  | JSONDecodeError
  | ServiceError (msg : string).

Inductive outcome (A : Type) : Type :=
  | Ok (a : A)
  | Raise (e : exn).
Arguments Ok {A} a.
Arguments Raise {A} e.

#[global] Instance outcome_ret : MRet outcome := fun A a => Ok a.
#[global] Instance outcome_bind : MBind outcome := fun A B f m =>
  match m with
  | Ok a => f a
  | Raise e => Raise e
  end.

(** ** Binary64 numbers *)

Module F64.

Definition prec : Z := 53.
Definition emax : Z := 1024.

Definition sub : spec_float -> spec_float -> spec_float := SFsub prec emax.
Definition mul : spec_float -> spec_float -> spec_float := SFmul prec emax.
Definition div : spec_float -> spec_float -> spec_float := SFdiv prec emax.
Definition abs : spec_float -> spec_float := SFabs.
Definition ltb : spec_float -> spec_float -> bool := SFltb.
Definition leb : spec_float -> spec_float -> bool := SFleb.
Definition eqb : spec_float -> spec_float -> bool := SFeqb.

Definition zero : spec_float := S754_zero false.

Definition is_zero (x : spec_float) : bool :=
  match x with S754_zero _ => true | _ => false end.

Definition is_infinite (x : spec_float) : bool :=
  match x with S754_infinity _ => true | _ => false end.

(** The integer [z] as an unrounded binary number [z * 2^0]. *)
Definition exact (z : Z) : spec_float :=
  match z with
  | Z0 => S754_zero false
  | Zpos p => S754_finite false p 0
  | Zneg p => S754_finite true p 0
  end.

(** The quotient [a / b] of two integers, rounded once. *)
Definition quotient (a b : Z) : spec_float := div (exact a) (exact b).

(** The decimal [m * 10^-k] rounded to the nearest binary64: the value of a
    decimal literal and of [float(s)] on a digit string. *)
Definition of_decimal (m : Z) (k : nat) : spec_float :=
  quotient m (10 ^ Z.of_nat k).

(** An integer rounded to the nearest binary64 (infinite when too large). *)
Definition of_Z (z : Z) : spec_float := binary_normalize prec emax z 0 false.

(** Values with a clear sign bit that are numbers. *)
Definition nonneg (x : spec_float) : Prop :=
  match x with
  | S754_zero s | S754_infinity s | S754_finite s _ _ => s = false
  | S754_nan => False
  end.

End F64.

Abbreviation float := spec_float.

(** ** Python numbers: [int] or [float] *)

Inductive number : Type :=
  | Int (z : Z)
  | Float (f : float).

(** Conversion of an operand to [float] in mixed arithmetic; an [int] out of
    the range of binary64 raises. *)
Definition as_float (n : number) : outcome float :=
  match n with
  | Float f => Ok f
  | Int z =>
      let f := F64.of_Z z in
      if F64.is_infinite f then Raise OverflowError else Ok f
  end.

(** [a / b] on [int]s. *)
Definition int_truediv (a b : Z) : outcome float :=
  if b =? 0 then Raise ZeroDivisionError
  else
    let q := F64.quotient a b in
    if F64.is_infinite q then Raise OverflowError else Ok q.

(** Truth value of [None] or a [float]: [None] and zero are false. *)
Definition truthy (x : option float) : bool :=
  match x with
  | None => false
  | Some f => negb (F64.is_zero f)
  end.

(** ** Text *)

Definition nl : string := String (ascii_of_nat 10) "".

Definition is_digit (c : ascii) : bool :=
  let n := N_of_ascii c in ((48 <=? n) && (n <=? 57))%N.

Definition digit_value (c : ascii) : Z := Z.of_N (N_of_ascii c) - 48.

Fixpoint digits_value (acc : Z) (s : string) : Z :=
  match s with
  | "" => acc
  | String c s' => digits_value (10 * acc + digit_value c) s'
  end.

Definition str_Z (z : Z) : string := NilZero.string_of_int (Z.to_int z).

(** [format(z, "+")] *)
Definition str_Z_signed (z : Z) : string :=
  if 0 <=? z then "+" ++ str_Z z else str_Z z.

Fixpoint str_repeat (s : string) (n : nat) : string :=
  match n with
  | O => ""
  | S n' => s ++ str_repeat s n'
  end.

(** ** The pattern [\d+(?:\.\d+)?] *)

(** Greedy [\d*]: the longest prefix of digits and what follows it. *)
Fixpoint span_digits (s : string) : string * string :=
  match s with
  | String c s' =>
      if is_digit c then
        let (d, r) := span_digits s' in (String c d, r)
      else ("", s)
  | "" => ("", "")
  end.

(** A match of the pattern at the head of [s]: the matched text and the rest.
    After the greedy [\d+], the optional group is taken when a dot followed
    by a digit comes next, and skipped otherwise. *)
Definition match_number (s : string) : option (string * string) :=
  match span_digits s with
  | ("", _) => None
  | (ip, r) =>
      match r with
      | String "."%char r' =>
          match span_digits r' with
          | ("", _) => Some (ip, r)
          | (fp, r'') => Some (ip ++ "." ++ fp, r'')
          end
      | _ => Some (ip, r)
      end
  end.

(** [re.findall]: scan from left to right; where the pattern matches, record
    the match and resume after its end ([skip] counts the characters of the
    current match still to pass); elsewhere move one character on. *)
Fixpoint findall_from (skip : nat) (s : string) : list string :=
  match s with
  | "" => []
  | String _ s' =>
      match skip with
      | S k => findall_from k s'
      | O =>
          match match_number s with
          | Some (m, _) => m :: findall_from (String.length m - 1) s'
          | None => findall_from 0 s'
          end
      end
  end.

Definition findall (text : string) : list string := findall_from 0 text.

(** [float(s)] for the two shapes the pattern produces, digits and
    digits-dot-digits; the other syntaxes that [float] accepts are not
    needed and are rejected here. *)
Definition py_float (s : string) : outcome float :=
  match span_digits s with
  | ("", _) => Raise ValueError
  | (ip, "") => Ok (F64.of_decimal (digits_value 0 ip) 0)
  | (ip, String "."%char r') =>
      match span_digits r' with
      | (String c fp, "") =>
          Ok (F64.of_decimal (digits_value 0 (ip ++ String c fp))
                             (String.length (String c fp)))
      | _ => Raise ValueError
      end
  | _ => Raise ValueError
  end.

(** [extract_number]: the last match as a float, or [None]. *)
Definition extract_number (text : string) : outcome (option float) :=
  let numbers := findall text in
  match last numbers with
  | Some tok => f ← py_float tok; mret (Some f)
  | None => mret None
  end.

(** ** [collections.Counter] and [most_common(1)] *)

Section Counter.
Context {A : Type} (key_eqb : A -> A -> bool).

(** A counter is a dictionary in insertion order: keys with their counts. *)
Definition counter : Type := list (A * Z).

(** [c[x] = c.get(x, 0) + 1]: an existing key keeps its place. *)
Fixpoint counter_add (x : A) (c : counter) : counter :=
  match c with
  | [] => [(x, 1)]
  | (k, n) :: c' =>
      if key_eqb k x then (k, n + 1) :: c' else (k, n) :: counter_add x c'
  end.

Definition Counter (xs : list A) : counter :=
  fold_left (fun c x => counter_add x c) xs [].

(** [max(items, key=itemgetter(1))]: the first item among the maximal. *)
Fixpoint max_by_count (best : A * Z) (c : counter) : A * Z :=
  match c with
  | [] => best
  | kv :: c' => max_by_count (if snd best <? snd kv then kv else best) c'
  end.

(** [most_common(1)], that is [heapq.nlargest(1, items, key=count)]. *)
Definition most_common_1 (c : counter) : list (A * Z) :=
  match c with
  | [] => []
  | kv :: c' => [max_by_count kv c']
  end.

(** [xs.count(x)] *)
Definition occurrences (x : A) (xs : list A) : Z :=
  Z.of_nat (length (List.filter (key_eqb x) xs)).

(** The elements of [xs] that differ from [x]. *)
Definition others (x : A) (xs : list A) : list A :=
  List.filter (fun y => negb (key_eqb x y)) xs.

End Counter.

(** [l[i]] for a non-negative index. *)
Definition getitem_list {A : Type} (l : list A) (i : nat) : outcome A :=
  match l !! i with
  | Some x => Ok x
  | None => Raise IndexError
  end.

(** ** Python values that are stored as JSON *)

(** A dictionary lists its items in insertion order. *)
Inductive pyval : Type :=
  | PNone
  | PBool (b : bool)
  | PNum (n : number)
  | PStr (s : string)
  | PList (l : list pyval)
  | PDict (d : list (string * pyval)).

Definition PFloat (f : float) : pyval := PNum (Float f).

Definition POptFloat (x : option float) : pyval :=
  match x with
  | Some f => PFloat f
  | None => PNone
  end.

(** ** The process state *)

(** A console line: literal text and values printed by their [str]. *)
Inductive frag : Type :=
  | Text (s : string)
  | Str (v : pyval).

Definition line : Type := list frag.

(** A call of [client.chat.completions.create], with one user message. *)
Record request : Type := {
  model : string;
  prompt : string;
  temperature : number;
  max_tokens : Z
}.

(** The client object of the completion service. *)
Record OpenAI : Type := { api_key : option string }.

(** What the reporter hands to the plotting library. *)
Record chart : Type := {
  bar_names : list string;
  bar_heights : list float;
  bar_colors : list string;
  bar_texts : list string;
  ylabel : string;
  title : string
}.

(** The content of a file: a JSON document, a saved figure, or other data. *)
Inductive file : Type :=
  | Json (v : pyval)
  | Image (c : chart)
  | Data (bytes : string).

Record world : Type := {
  environ : gmap string string;
  files : gmap string file;
  console : list line;
  sent : list request
}.

Definition M (A : Type) : Type := world -> outcome A * world.

#[global] Instance M_ret : MRet M := fun A a w => (Ok a, w).
#[global] Instance M_bind : MBind M := fun A B f m w =>
  match m w with
  | (Ok a, w') => f a w'
  | (Raise e, w') => (Raise e, w')
  end.

Definition lift {A : Type} (o : outcome A) : M A := fun w => (o, w).

Definition print (l : line) : M unit := fun w =>
  (Ok tt, {| environ := environ w; files := files w;
             console := console w ++ [l]; sent := sent w |}).

Definition getenv (name : string) : M (option string) := fun w =>
  (Ok (environ w !! name), w).

(** [with open(name, "w") as f: json.dump(v, f)] *)
Definition write_json (name : string) (v : pyval) : M unit := fun w =>
  (Ok tt, {| environ := environ w; files := <[name := Json v]> (files w);
             console := console w; sent := sent w |}).

(** [with open(name, "r") as f: json.load(f)] *)
Definition read_json (name : string) : M pyval := fun w =>
  match files w !! name with
  | None => (Raise FileNotFoundError, w)
  | Some (Json v) => (Ok v, w)
  | Some _ => (Raise JSONDecodeError, w)
  end.

(** [plt.savefig(name)] *)
Definition savefig (name : string) (c : chart) : M unit := fun w =>
  (Ok tt, {| environ := environ w; files := <[name := Image c]> (files w);
             console := console w; sent := sent w |}).

(** ** The evaluator, [self_consistency.py] *)

Record Problem : Type := {
  problem : string;
  answer : number
}.

Definition PROBLEMS : list Problem := [
  {| problem := "A store sold 450 books Monday, 325 Tuesday, 275 Wednesday. Thursday it sold 50 more than Wednesday. Total books sold?";
     answer := Int 1100 |};
  {| problem := "Sarah has $120. Spends 1/4 on jacket, 1/3 of remaining on shoes. Money left?";
     answer := Int 60 |};
  {| problem := "Train travels 240 miles in 4 hours. How many miles in 7 hours at same speed?";
     answer := Int 420 |};
  {| problem := "Class of 30: 18 girls, rest boys. 2/3 girls and 3/4 boys play sports. How many play sports?";
     answer := Int 21 |};
  {| problem := "Rectangle 15cm x 8cm. Length +20%, width -25%. New area?";
     answer := Int 108 |};
  {| problem := "Tom scored 85, 92, 78 on three tests. What score needed on fourth test for 88 average?";
     answer := Int 97 |};
  {| problem := "Item costs $75, 20% discount, then 6% tax on discounted price. Total paid?";
     answer := Float (F64.of_decimal 636 1) |};
  {| problem := "Pool filled by pipe A in 6 hours, pipe B in 8 hours. Both together?";
     answer := Float (F64.of_decimal 343 2) |};
  {| problem := "Car to motorcycle ratio 5:2. If 35 cars, how many motorcycles?";
     answer := Int 14 |};
  {| problem := "Profit increased from $50,000 to $65,000. Percentage increase?";
     answer := Int 30 |}
].

(** The dictionary returned by [evaluate_problem]. *)
Record result : Type := {
  problem_text : string;
  correct_answer : number;
  deterministic_answer : option float;
  deterministic_correct : bool;
  majority_answer : option float;
  majority_correct : bool;
  all_answers : list float
}.

(** The dictionary as [json.dump] receives it, keys in their order. *)
Definition result_dict (r : result) : pyval :=
  PDict [
    ("problem", PStr (problem_text r));
    ("correct_answer", PNum (correct_answer r));
    ("deterministic_answer", POptFloat (deterministic_answer r));
    ("deterministic_correct", PBool (deterministic_correct r));
    ("majority_answer", POptFloat (majority_answer r));
    ("majority_correct", PBool (majority_correct r));
    ("all_answers", PList (map PFloat (all_answers r)))
  ].

(** [abs(x - correct) < 0.1] *)
Definition within_tolerance (x : float) (correct : number) : outcome bool :=
  c ← as_float correct;
  mret (F64.ltb (F64.abs (F64.sub x c)) (F64.of_decimal 1 1)).

Definition mark (b : bool) : string := if b then "✓" else "✗".

Definition str_truthy (s : option string) : bool :=
  match s with
  | None | Some "" => false
  | Some _ => true
  end.

Section Evaluator.

(** The completion service, outside the program: the text of the first
    choice of its reply to a request, given how many requests the run has
    sent before, or the error the call raises. *)
Variable service : OpenAI -> nat -> request -> outcome string.

(** The module-level [client]. *)
Variable client : OpenAI.

Definition get_response (problem : string) (temperature : number) : M string :=
  fun w =>
    let prompt :=
      "Solve: " ++ problem ++ nl ++ nl ++ "Let's think step-by-step:" in
    let req := {| model := "gpt-3.5-turbo"; prompt := prompt;
                  temperature := temperature; max_tokens := 300 |} in
    (service client (length (sent w)) req,
     {| environ := environ w; files := files w;
        console := console w; sent := sent w ++ [req] |}).

(** [abs(x - correct) < 0.1] where [x] may be [None]. *)
Definition close_to (x : option float) (correct : number) : outcome bool :=
  match x with
  | Some f => within_tolerance f correct
  | None => Raise TypeError
  end.

(** [if answer: answers.append(answer)] *)
Definition keep (answers : list float) (answer : option float) : list float :=
  if truthy answer then
    match answer with
    | Some f => answers ++ [f]
    | None => answers
    end
  else answers.

(** The body of [for i in range(n)] in [evaluate_problem]. *)
Fixpoint sample_answers (problem : string) (n : nat) (answers : list float)
  : M (list float) :=
  match n with
  | O => mret answers
  | S n' =>
      response ← get_response problem (Float (F64.of_decimal 11 1));
      answer ← lift (extract_number response);
      sample_answers problem n' (keep answers answer)
  end.

Definition evaluate_problem (problem_data : Problem) : M result :=
  let correct := answer problem_data in
  print [Text (nl ++ "Problem: " ++ problem problem_data)];;
  print [Text "Correct: "; Str (PNum correct)];;
  (* Method 1: single deterministic *)
  det_response ← get_response (problem problem_data) (Int 0);
  det_answer ← lift (extract_number det_response);
  det_correct ← lift (if truthy det_answer then close_to det_answer correct
                      else mret false);
  print [Text "Deterministic: "; Str (POptFloat det_answer);
         Text (" (" ++ mark det_correct ++ ")")];;
  (* Method 2: majority vote (10 samples) *)
  answers ← sample_answers (problem problem_data) 10 [];
  '(majority_answer, maj_correct) ←
    match answers with
    | _ :: _ =>
        top ← lift (getitem_list (most_common_1 (Counter F64.eqb answers)) 0);
        let majority_answer := fst top in
        maj_correct ← lift (within_tolerance majority_answer correct);
        print [Text "Majority vote: "; Str (PFloat majority_answer);
               Text (" (" ++ mark maj_correct ++ ")")];;
        print [Text "All answers: "; Str (PList (map PFloat answers))];;
        mret (Some majority_answer, maj_correct)
    | [] =>
        print [Text "Majority vote: Failed to extract answers"];;
        mret (None, false)
    end;
  mret {| problem_text := problem problem_data;
          correct_answer := correct;
          deterministic_answer := det_answer;
          deterministic_correct := det_correct;
          majority_answer := majority_answer;
          majority_correct := maj_correct;
          all_answers := answers |}.

Definition rule : string := str_repeat "=" 50.

(** The loop [for i, problem_data in enumerate(PROBLEMS)] of [main], from
    index [i] on. *)
Fixpoint run_problems (i : Z) (todo : list Problem) (results : list result)
    (det_score maj_score : Z) : M (list result * Z * Z) :=
  match todo with
  | [] => mret (results, det_score, maj_score)
  | problem_data :: todo' =>
      print [Text (nl ++ rule)];;
      print [Text ("Problem " ++ str_Z (i + 1) ++ "/10")];;
      result ← evaluate_problem problem_data;
      let results := (results ++ [result])%list in
      let det_score :=
        if deterministic_correct result then det_score + 1 else det_score in
      let maj_score :=
        if majority_correct result then maj_score + 1 else maj_score in
      run_problems (i + 1) todo' results det_score maj_score
  end.

(** [json.dump(results, f, indent=2)] into [problems.json]. *)
Definition save_results (results : list result) : M unit :=
  write_json "problems.json" (PList (map result_dict results)).

Definition main : M unit :=
  key ← getenv "OPENAI_API_KEY";
  if negb (str_truthy key) then
    print [Text "Set OPENAI_API_KEY environment variable"]
  else
    '(results, det_score, maj_score) ← run_problems 0 PROBLEMS [] 0 0;
    print [Text (nl ++ rule)];;
    print [Text "RESULTS"];;
    print [Text rule];;
    print [Text ("Deterministic accuracy: " ++ str_Z det_score ++ "/10 ("
                 ++ str_Z (det_score * 10) ++ "%)")];;
    print [Text ("Majority vote accuracy: " ++ str_Z maj_score ++ "/10 ("
                 ++ str_Z (maj_score * 10) ++ "%)")];;
    print [Text ("Improvement: "
                 ++ str_Z_signed ((maj_score - det_score) * 10) ++ "%")];;
    save_results results;;
    print [Text (nl ++ "Results saved to problems.json")].

End Evaluator.

(** The module run as a program: the client is built from the environment
    (as it is after [load_dotenv()]) when the module is loaded, then [main()]
    runs. [OpenAI_new] is the constructor of the client library. *)
Definition script (OpenAI_new : option string -> outcome OpenAI)
    (service : OpenAI -> nat -> request -> outcome string) : M unit :=
  key ← getenv "OPENAI_API_KEY";
  client ← lift (OpenAI_new key);
  main service client.

(** ** The reporter, [accuracy.py] *)

(** Truth value of a Python value. *)
Definition py_truthy (v : pyval) : bool :=
  match v with
  | PNone => false
  | PBool b => b
  | PNum (Int z) => negb (z =? 0)
  | PNum (Float f) => negb (F64.is_zero f)
  | PStr s => negb (String.eqb s "")
  | PList l => match l with [] => false | _ => true end
  | PDict d => match d with [] => false | _ => true end
  end.

Fixpoint dict_get (d : list (string * pyval)) (key : string) : option pyval :=
  match d with
  | [] => None
  | (k, v) :: d' => if String.eqb k key then Some v else dict_get d' key
  end.

(** [v[key]] for a string [key]. *)
Definition getitem (v : pyval) (key : string) : outcome pyval :=
  match v with
  | PDict d =>
      match dict_get d key with
      | Some x => Ok x
      | None => Raise KeyError
      end
  | _ => Raise TypeError
  end.

(** The items a [for] loop over [v] visits. *)
Definition iter (v : pyval) : outcome (list pyval) :=
  match v with
  | PList l => Ok l
  | PDict d => Ok (map (fun kv => PStr (fst kv)) d)
  | PStr s => Ok (map (fun c => PStr (String c "")) (list_ascii_of_string s))
  | _ => Raise TypeError
  end.

(** [len(v)] *)
Definition len (v : pyval) : outcome Z :=
  match v with
  | PList l => Ok (Z.of_nat (length l))
  | PDict d => Ok (Z.of_nat (length d))
  | PStr s => Ok (Z.of_nat (String.length s))
  | _ => Raise TypeError
  end.

(** [sum(1 for r in items if r[key])] *)
Fixpoint count_if (key : string) (items : list pyval) : outcome Z :=
  match items with
  | [] => Ok 0
  | r :: items' =>
      flag ← getitem r key;
      n ← count_if key items';
      mret (if py_truthy flag then 1 + n else n)
  end.

(** [n / d] rounded to the nearest integer, ties to even ([0 <= n], [0 < d]). *)
Definition div_nearest_even (n d : Z) : Z :=
  let q := n / d in
  match 2 * (n mod d) ?= d with
  | Lt => q
  | Gt => q + 1
  | Eq => if Z.even q then q else q + 1
  end.

(** [m * 2^e] in tenths, rounded to the nearest, ties to even. *)
Definition tenths (m : positive) (e : Z) : Z :=
  match e with
  | Zneg p => div_nearest_even (10 * Zpos m) (2 ^ Zpos p)
  | _ => 10 * Zpos m * 2 ^ e
  end.

(** [format(x, ".1%")], and [format(x, "+.1%")] when [plus]: the value times
    one hundred with one decimal and a percent sign. *)
Definition format_percent (plus : bool) (x : float) : string :=
  let sign (s : bool) := if s then "-" else if plus then "+" else "" in
  match F64.mul x (F64.of_Z 100) with
  | S754_nan => sign false ++ "nan%"
  | S754_infinity s => sign s ++ "inf%"
  | S754_zero s => sign s ++ "0.0%"
  | S754_finite s m e =>
      let t := tenths m e in
      sign s ++ str_Z (t / 10) ++ "." ++ str_Z (t mod 10) ++ "%"
  end.

(** [try: body except FileNotFoundError: handler] *)
Definition try_except_FileNotFoundError {A : Type} (body handler : M A) : M A :=
  fun w =>
    match body w with
    | (Raise FileNotFoundError, w') => handler w'
    | other => other
    end.

(** The chart and the summary of [create_accuracy_chart], from the two
    counts and the number of results. *)
Definition report (det_correct maj_correct total : Z) : M unit :=
  (* Create simple bar chart *)
  let methods := ["Deterministic" ++ nl ++ "(temp=0)";
                  "Majority Vote" ++ nl ++ "(temp=1.1)"] in
  det_score ← lift (int_truediv det_correct total);
  maj_score ← lift (int_truediv maj_correct total);
  let scores := [det_score; maj_score] in
  let fig := {| bar_names := methods; bar_heights := scores;
                bar_colors := ["lightcoral"; "lightblue"];
                bar_texts := map (format_percent false) scores;
                ylabel := "Accuracy";
                title := "Chain-of-Thought: Deterministic vs Self-Consistency" |} in
  (* Save chart *)
  savefig "accuracy.png" fig;;
  print [Text "Accuracy chart saved as accuracy.png"];;
  (* Show improvement *)
  improvement ← lift (int_truediv (maj_correct - det_correct) total);
  print [Text (nl ++ "Accuracy Results:")];;
  det_ratio ← lift (int_truediv det_correct total);
  print [Text ("Deterministic: " ++ str_Z det_correct ++ "/" ++ str_Z total
               ++ " (" ++ format_percent false det_ratio ++ ")")];;
  maj_ratio ← lift (int_truediv maj_correct total);
  print [Text ("Majority Vote: " ++ str_Z maj_correct ++ "/" ++ str_Z total
               ++ " (" ++ format_percent false maj_ratio ++ ")")];;
  print [Text ("Improvement: " ++ format_percent true improvement)].

(** The counts of [create_accuracy_chart] over the loaded results. *)
Definition count_correct (results : pyval) : outcome (Z * Z * Z) :=
  items ← iter results;
  det_correct ← count_if "deterministic_correct" items;
  maj_correct ← count_if "majority_correct" items;
  total ← len results;
  mret (det_correct, maj_correct, total).

Definition create_accuracy_chart : M unit :=
  results ← try_except_FileNotFoundError
               (v ← read_json "problems.json"; mret (Some v))
               (print [Text "Run self_consistency.py first to generate results"];;
                mret None);
  match results with
  | None => mret tt
  | Some results =>
      '(det_correct, maj_correct, total) ← lift (count_correct results);
      report det_correct maj_correct total
  end.

(** ** Sample inputs *)

Definition blank : world :=
  {| environ := ∅; files := ∅; console := []; sent := [] |}.

Definition test_client : OpenAI := {| api_key := Some "sk-test" |}.

(** A service that gives the [n]-th reply of a list to the [n]-th request. *)
Definition scripted (replies : list string)
    : OpenAI -> nat -> request -> outcome string :=
  fun _ n _ =>
    match replies !! n with
    | Some reply => Ok reply
    | None => Ok "I am not sure."
    end.

(** A service that always gives the same reply. *)
Definition constant (reply : string)
    : OpenAI -> nat -> request -> outcome string :=
  fun _ _ _ => Ok reply.

Definition cars : Problem :=
  {| problem := "Car to motorcycle ratio 5:2. If 35 cars, how many motorcycles?";
     answer := Int 14 |}.

Definition profit : Problem :=
  {| problem := "Profit increased from $50,000 to $65,000. Percentage increase?";
     answer := Int 30 |}.

Definition difference : Problem :=
  {| problem := "Ann has 7 apples and gives away 7. How many are left?";
     answer := Int 0 |}.

(** A result with given flags, and ten results of which seven have the first
    flag and nine the second. *)
Definition flagged (det maj : bool) : result :=
  {| problem_text := "Train travels 240 miles in 4 hours. How many miles in 7 hours at same speed?";
     correct_answer := Int 420;
     deterministic_answer := Some (F64.of_Z (if det then 420 else 60));
     deterministic_correct := det;
     majority_answer := Some (F64.of_Z (if maj then 420 else 60));
     majority_correct := maj;
     all_answers := [F64.of_Z (if maj then 420 else 60)] |}.

Definition ten_results : list result :=
  [flagged true true; flagged true true; flagged false true;
   flagged true true; flagged true true; flagged false true;
   flagged true true; flagged false false; flagged true true;
   flagged true true].

Definition with_results (rs : list result) : world :=
  {| environ := ∅;
     files := {["problems.json" := Json (PList (map result_dict rs))]};
     console := []; sent := [] |}.

(** The lines of the two early returns, and of the summary of the reporter
    for seven and nine correct answers out of ten. *)
Definition credential_message : line :=
  [Text "Set OPENAI_API_KEY environment variable"].

Definition missing_file_message : line :=
  [Text "Run self_consistency.py first to generate results"].

(** The closing lines of [main]. *)
Definition evaluator_summary (det_score maj_score : Z) : list line :=
  [[Text (nl ++ rule)];
   [Text "RESULTS"];
   [Text rule];
   [Text ("Deterministic accuracy: " ++ str_Z det_score ++ "/10 ("
          ++ str_Z (det_score * 10) ++ "%)")];
   [Text ("Majority vote accuracy: " ++ str_Z maj_score ++ "/10 ("
          ++ str_Z (maj_score * 10) ++ "%)")];
   [Text ("Improvement: " ++ str_Z_signed ((maj_score - det_score) * 10) ++ "%")];
   [Text (nl ++ "Results saved to problems.json")]].

Definition summary_7_9_10 : list line :=
  [[Text "Accuracy chart saved as accuracy.png"];
   [Text (nl ++ "Accuracy Results:")];
   [Text "Deterministic: 7/10 (70.0%)"];
   [Text "Majority Vote: 9/10 (90.0%)"];
   [Text "Improvement: +20.0%"]].

(** The number of elements of [l] that satisfy [f]. *)
Definition count {A : Type} (f : A -> bool) (l : list A) : Z :=
  Z.of_nat (length (List.filter f l)).

(** ** Vocabulary of the statements *)

Fixpoint all_digits (s : string) : bool :=
  match s with
  | "" => true
  | String c s' => is_digit c && all_digits s'
  end.

Fixpoint has_digit (s : string) : bool :=
  match s with
  | "" => false
  | String c s' => is_digit c || has_digit s'
  end.

Definition starts_without_digit (r : string) : Prop :=
  match r with
  | String c _ => is_digit c = false
  | "" => True
  end.

(** [tok] is a numeral of the pattern with decimal value [n * 10^-k]: a
    non-empty run of digits, or two such runs around one dot. *)
Inductive numeral : string -> Z -> nat -> Prop :=
  | numeral_integer ip :
      ip <> "" -> all_digits ip = true ->
      numeral ip (digits_value 0 ip) 0
  | numeral_decimal ip fp :
      ip <> "" -> all_digits ip = true ->
      fp <> "" -> all_digits fp = true ->
      numeral (ip ++ "." ++ fp) (digits_value 0 (ip ++ fp)) (String.length fp).

(** Nothing after [tok] could have made the match longer: no digit comes
    next, and after a run of digits no dot followed by a digit. *)
Definition maximal (tok text : string) : Prop :=
  starts_without_digit text
  /\ (all_digits tok = true ->
      match text with
      | String "."%char (String c _) => is_digit c = false
      | _ => True
      end).

(** The matches of the pattern in a text, as a relation: the text is cut
    into gaps without a digit and numerals that cannot be made longer, and
    the numerals are listed from left to right. *)
Inductive finds : string -> list string -> Prop :=
  | finds_nil gap :
      has_digit gap = false -> finds gap []
  | finds_cons gap tok n k text toks :
      has_digit gap = false -> numeral tok n k -> maximal tok text ->
      finds text toks ->
      finds (gap ++ tok ++ text) (tok :: toks).

(** The answers kept by the loop, in the order of the responses: those that
    were extracted and are not zero. *)
Definition kept (x : option float) : option float :=
  match x with
  | Some f => if F64.is_zero f then None else Some f
  | None => None
  end.

(** Values that [extract_number] returned on some texts. *)
Definition extractions (extracted : list (option float)) : Prop :=
  Forall (fun x => exists text, extract_number text = Ok x) extracted.

(** The answers that survive [keep] out of a sequence of extractions. *)
Definition retained (extracted : list (option float)) : list float :=
  fold_left keep extracted [].

(** ** Vocabulary of the further properties *)

(** The request that [get_response] sends for a problem at a temperature. *)
Definition request_for (problem : string) (temperature : number) : request :=
  {| model := "gpt-3.5-turbo";
     prompt := "Solve: " ++ problem ++ nl ++ nl ++ "Let's think step-by-step:";
     temperature := temperature;
     max_tokens := 300 |}.

(** The requests of one problem: one at temperature 0, then ten at 1.1. *)
Definition requests_of (p : Problem) : list request :=
  request_for (problem p) (Int 0)
  :: replicate 10 (request_for (problem p) (Float (F64.of_decimal 11 1))).

(** A run from [w] to [w'] that wrote no file and left the environment: it
    only printed lines and sent requests. *)
Definition only_talks (w w' : world) : Prop :=
  environ w' = environ w
  /\ files w' = files w
  /\ console w `prefix_of` console w'
  /\ sent w `prefix_of` sent w'.

(** A run of the reporter from [w] to [w']: it sent nothing and left the
    environment, and changed no file other than the image. *)
Definition only_draws (w w' : world) : Prop :=
  environ w' = environ w
  /\ sent w' = sent w
  /\ console w `prefix_of` console w'
  /\ forall name, name <> "accuracy.png" -> files w' !! name = files w !! name.

(** Some request was answered by the error [e]. *)
Definition service_raised
    (service : OpenAI -> nat -> request -> outcome string) (client : OpenAI)
    (e : exn) : Prop :=
  exists (n : nat) (req : request), service client n req = Raise e.

(** A world with a credential, and a service whose request number [n]
    fails. *)
Definition keyed : world :=
  {| environ := {["OPENAI_API_KEY" := "sk-test"]}; files := ∅;
     console := []; sent := [] |}.

Definition failing_at (n : nat) : OpenAI -> nat -> request -> outcome string :=
  fun _ i _ =>
    if Nat.eqb i n then Raise (ServiceError "rate limit") else Ok "It is 14.".

Definition is_dict (v : pyval) : bool :=
  match v with
  | PDict _ => true
  | _ => false
  end.

Definition has_key (key : string) (v : pyval) : bool :=
  match v with
  | PDict d => match dict_get d key with Some _ => true | None => false end
  | _ => false
  end.

(** The sum of the counts of a counter. *)
Definition total_count {A : Type} (c : list (A * Z)) : Z :=
  fold_right (fun kv acc => snd kv + acc) 0 c.

(** The lines of the reporter for scores out of ten, with the percentages
    written as the evaluator writes them, followed by one decimal. *)
Definition reporter_summary (det_score maj_score : Z) : list line :=
  [[Text "Accuracy chart saved as accuracy.png"];
   [Text (nl ++ "Accuracy Results:")];
   [Text ("Deterministic: " ++ str_Z det_score ++ "/10 ("
          ++ str_Z (det_score * 10) ++ ".0%)")];
   [Text ("Majority Vote: " ++ str_Z maj_score ++ "/10 ("
          ++ str_Z (maj_score * 10) ++ ".0%)")];
   [Text ("Improvement: " ++ str_Z_signed ((maj_score - det_score) * 10)
          ++ ".0%")]].

(** ** Rounding keeps the sign *)

Lemma shr_1_nonneg (mrs : shr_record) :
  0 <= shr_m mrs -> 0 <= shr_m (shr_1 mrs).
Proof.
  destruct mrs as [m r s]; simpl.
  destruct m as [|[p|p|]|[p|p|]]; simpl; lia.
Qed.

Lemma iter_pos_invariant {A : Type} (P : A -> Prop) (f : A -> A) :
  (forall x, P x -> P (f x)) ->
  forall (n : positive) (x : A), P x -> P (SpecFloat.iter_pos f n x).
Proof.
  intros Hf n; induction n as [n IH|n IH|]; intros x Hx; simpl; auto.
Qed.

Lemma shr_fexp_nonneg (m e : Z) (l : location) :
  0 <= m -> 0 <= shr_m (fst (shr_fexp F64.prec F64.emax m e l)).
Proof.
  intros Hm; unfold shr_fexp, shr.
  assert (H0 : 0 <= shr_m (shr_record_of_loc m l))
    by (destruct l as [|[]]; simpl; exact Hm).
  destruct (fexp F64.prec F64.emax (Zdigits2 m + e) - e) as [|p|p]; simpl; auto.
  apply (iter_pos_invariant (fun r => 0 <= shr_m r)); auto using shr_1_nonneg.
Qed.

Lemma round_nearest_even_nonneg (m : Z) (l : location) :
  0 <= m -> 0 <= round_nearest_even m l.
Proof.
  intros Hm; destruct l as [|[]]; simpl; try lia.
  destruct (Z.even m); lia.
Qed.

Lemma binary_round_aux_nonneg (m e : Z) (l : location) :
  0 <= m -> F64.nonneg (binary_round_aux F64.prec F64.emax false m e l).
Proof.
  intros Hm; unfold binary_round_aux.
  pose proof (shr_fexp_nonneg m e l Hm) as H1.
  destruct (shr_fexp F64.prec F64.emax m e l) as [mrs1 e1]; simpl in H1.
  pose proof (shr_fexp_nonneg _ e1 loc_Exact
                (round_nearest_even_nonneg _ (loc_of_shr_record mrs1) H1)) as H2.
  destruct (shr_fexp F64.prec F64.emax _ e1 loc_Exact) as [mrs2 e2]; simpl in H2.
  destruct (shr_m mrs2) as [|p|p]; simpl; try reflexivity; try lia.
  destruct (e2 <=? F64.emax - F64.prec); reflexivity.
Qed.

Lemma quotient_nonneg (a b : Z) :
  0 <= a -> 0 < b -> F64.nonneg (F64.quotient a b).
Proof.
  intros Ha Hb; unfold F64.quotient, F64.div, F64.exact.
  destruct b as [|q|q]; try lia.
  destruct a as [|p|p]; try lia; simpl; [reflexivity|].
  unfold SFdiv_core_binary.
  set (m' := match _ - _ - _ with Z0 => Zpos p | Zpos _ => _ | Zneg _ => 0 end).
  assert (Hm' : 0 <= m').
  { subst m'. destruct (_ - _ - _) as [|s|s]; try lia.
    apply Z.shiftl_nonneg; lia. }
  pose proof (Z.div_pos m' (Zpos q) Hm' ltac:(lia)) as Hq.
  unfold Z.div in Hq.
  destruct (Z.div_eucl m' (Zpos q)) as [qq rr]; simpl in Hq.
  apply binary_round_aux_nonneg; exact Hq.
Qed.

Lemma of_decimal_nonneg (m : Z) (k : nat) :
  0 <= m -> F64.nonneg (F64.of_decimal m k).
Proof.
  intros Hm; apply quotient_nonneg; [exact Hm|].
  apply Z.pow_pos_nonneg; lia.
Qed.

(** On numbers with a clear sign bit, [==] is equality. *)
Lemma eqb_nonneg (x y : float) :
  F64.nonneg x -> F64.nonneg y -> (F64.eqb x y = true <-> x = y).
Proof.
  unfold F64.eqb, SFeqb.
  destruct x as [sx|sx| |sx mx ex], y as [sy|sy| |sy my ey]; simpl;
    intros Hx Hy; subst; try tauto; try (split; [discriminate|congruence]).
  change (PosDef.Pos.compare_cont Eq mx my) with (Pos.compare mx my).
  destruct (Z.compare_spec ex ey) as [He|He|He];
    [destruct (Pos.compare_spec mx my) as [Hm|Hm|Hm]|..]; subst;
    try tauto; (split; [discriminate|intros [=]; lia]).
Qed.

(** ** The pattern and [findall] *)

Lemma span_digits_spec (s : string) :
  s = fst (span_digits s) ++ snd (span_digits s)
  /\ all_digits (fst (span_digits s)) = true
  /\ starts_without_digit (snd (span_digits s)).
Proof.
  induction s as [|c s IH]; simpl; [auto|].
  destruct (is_digit c) eqn:Hc; simpl; [|auto].
  destruct (span_digits s) as [d r]; simpl in *.
  destruct IH as (-> & Hd & Hr).
  rewrite Hc, Hd; auto.
Qed.

Lemma span_digits_all (d r : string) :
  all_digits d = true -> starts_without_digit r -> span_digits (d ++ r) = (d, r).
Proof.
  intros Hd Hr; induction d as [|c d IH]; simpl in *.
  - destruct r as [|c r]; simpl in *; [reflexivity|now rewrite Hr].
  - apply andb_true_iff in Hd as [Hc Hd]; rewrite Hc, (IH Hd); reflexivity.
Qed.

Lemma append_empty_r (s : string) : s ++ "" = s.
Proof. induction s as [|c s IH]; simpl; congruence. Qed.

Lemma append_assoc (a b c : string) : (a ++ b) ++ c = a ++ (b ++ c).
Proof. induction a as [|x a IH]; simpl; congruence. Qed.

Lemma all_digits_app (a b : string) :
  all_digits (a ++ b) = all_digits a && all_digits b.
Proof.
  induction a as [|c a IH]; simpl; [reflexivity|].
  rewrite IH; apply andb_assoc.
Qed.

Lemma has_digit_app (a b : string) :
  has_digit (a ++ b) = has_digit a || has_digit b.
Proof.
  induction a as [|c a IH]; simpl; [reflexivity|].
  rewrite IH; apply orb_assoc.
Qed.

Lemma dot_not_digit : is_digit "."%char = false.
Proof. reflexivity. Qed.

Lemma span_digits_nil (r : string) :
  starts_without_digit r -> span_digits r = ("", r).
Proof. destruct r as [|c r]; simpl; [reflexivity|intros ->; reflexivity]. Qed.

Lemma span_digits_fst_nil (r : string) :
  fst (span_digits r) = "" -> starts_without_digit r.
Proof.
  destruct r as [|c r]; simpl; [auto|].
  destruct (is_digit c); [|reflexivity].
  destruct (span_digits r); discriminate.
Qed.

Lemma match_number_spec (s m r : string) :
  match_number s = Some (m, r) ->
  s = m ++ r /\ (exists n k, numeral m n k) /\ maximal m r.
Proof.
  unfold match_number.
  destruct (span_digits_spec s) as (Hs & Hd & Hr).
  destruct (span_digits s) as [ip r0]; simpl in *.
  destruct ip as [|c ip]; [discriminate|].
  assert (Hint : exists n k, numeral (String c ip) n k)
    by (eexists _, _; apply numeral_integer; [discriminate|exact Hd]).
  assert (Hdot : forall r', r0 = String "."%char r' ->
            Some (match span_digits r' with
                  | ("", _) => (String c ip, r0)
                  | (fp, r'') => (String c ip ++ "." ++ fp, r'')
                  end) = Some (m, r) ->
            s = m ++ r /\ (exists n k, numeral m n k) /\ maximal m r).
  { intros r' -> H.
    destruct (span_digits_spec r') as (Hs' & Hd' & Hr').
    pose proof (span_digits_fst_nil r') as Hnil.
    destruct (span_digits r') as [fp r'']; simpl in *.
    destruct fp as [|c' fp]; injection H as <- <-.
    - split; [exact Hs|]. split; [exact Hint|]. split; [exact Hr|].
      intros _. specialize (Hnil eq_refl). destruct r'; [exact I|exact Hnil].
    - split; [|split].
      + rewrite Hs, Hs'. simpl. f_equal.
        rewrite append_assoc. reflexivity.
      + eexists _, _.
        apply (numeral_decimal (String c ip) (String c' fp));
          [discriminate|exact Hd|discriminate|exact Hd'].
      + split; [exact Hr'|].
        intros Hall; exfalso.
        change (String c ip ++ "." ++ String c' fp)
          with (String c (ip ++ "." ++ String c' fp)) in Hall.
        cbn [all_digits] in Hall. apply andb_true_iff in Hall as [_ Hall].
        rewrite all_digits_app in Hall.
        apply andb_true_iff in Hall as [_ Hall]. discriminate Hall. }
  assert (Hplain : Some (String c ip, r0) = Some (m, r) ->
            match r0 with String "."%char _ => False | _ => True end ->
            s = m ++ r /\ (exists n k, numeral m n k) /\ maximal m r).
  { intros [= <- <-] Hnd. split; [exact Hs|]. split; [exact Hint|].
    split; [exact Hr|]. intros _.
    destruct r0 as [|c0 r0]; [exact I|].
    destruct c0 as [[] [] [] [] [] [] [] []]; try exact I. destruct Hnd. }
  destruct r0 as [|c0 r0]; [intros H; apply Hplain; [exact H|exact I]|].
  destruct c0 as [[] [] [] [] [] [] [] []];
    try (intros H; apply Hplain; [exact H|exact I]).
  intros H; apply (Hdot r0 eq_refl).
  destruct (span_digits r0) as [[|c' fp] r'']; exact H.
Qed.

(** Conversely, a numeral that cannot be made longer is what the pattern
    matches at its place. *)
Lemma match_number_complete (tok text : string) (n : Z) (k : nat) :
  numeral tok n k -> maximal tok text ->
  match_number (tok ++ text) = Some (tok, text).
Proof.
  intros [ip Hne Hip|ip fp Hne Hip Hfne Hfp] [Hstart Hdot]; unfold match_number.
  - rewrite (span_digits_all ip text Hip Hstart).
    destruct ip as [|c ip]; [congruence|].
    specialize (Hdot Hip).
    destruct text as [|c0 text]; [reflexivity|].
    destruct c0 as [[] [] [] [] [] [] [] []]; try reflexivity.
    rewrite span_digits_nil; [reflexivity|].
    destruct text; [exact I|exact Hdot].
  - rewrite append_assoc.
    rewrite (span_digits_all ip (("." ++ fp) ++ text) Hip dot_not_digit).
    destruct ip as [|c ip]; [congruence|].
    change (("." ++ fp) ++ text) with (String "."%char (fp ++ text)). cbv iota beta.
    rewrite (span_digits_all fp text Hfp Hstart).
    destruct fp as [|c' fp]; [congruence|reflexivity].
Qed.

Lemma match_number_head (c : ascii) (s : string) :
  match_number (String c s) = None <-> is_digit c = false.
Proof.
  unfold match_number; simpl.
  destruct (is_digit c) eqn:Hc; [|tauto].
  destruct (span_digits s) as [d r].
  split; [|discriminate].
  destruct r as [|c0 r]; [discriminate|].
  destruct c0 as [[] [] [] [] [] [] [] []]; try discriminate.
  destruct (span_digits r) as [[|c' fp] r'']; discriminate.
Qed.

Lemma match_number_nonempty (s m r : string) :
  match_number s = Some (m, r) -> exists c m', m = String c m'.
Proof.
  intros H; apply match_number_spec in H as (_ & (n & k & Hn) & _).
  destruct Hn as [ip Hip _|ip fp Hip _ _ _];
    destruct ip as [|c ip]; try congruence; simpl; eauto.
Qed.

Lemma digits_value_nonneg (s : string) (acc : Z) :
  all_digits s = true -> 0 <= acc -> 0 <= digits_value acc s.
Proof.
  revert acc; induction s as [|c s IH]; simpl; intros acc Hs Hacc; [exact Hacc|].
  apply andb_true_iff in Hs as [Hc Hs].
  apply IH; [exact Hs|].
  unfold is_digit in Hc; apply andb_true_iff in Hc as [Hlo _].
  apply N.leb_le in Hlo. unfold digit_value. lia.
Qed.

Lemma numeral_nonneg (tok : string) (n : Z) (k : nat) :
  numeral tok n k -> 0 <= n.
Proof.
  intros [ip _ Hip|ip fp _ Hip _ Hfp]; apply digits_value_nonneg; try lia.
  - exact Hip.
  - rewrite all_digits_app, Hip, Hfp; reflexivity.
Qed.

(** [float] accepts every numeral and yields its decimal value, rounded. *)
Lemma py_float_numeral (tok : string) (n : Z) (k : nat) :
  numeral tok n k -> py_float tok = Ok (F64.of_decimal n k).
Proof.
  intros [ip Hne Hip|ip fp Hne Hip Hfne Hfp]; unfold py_float.
  - rewrite <- (append_empty_r ip) at 1.
    rewrite (span_digits_all ip "" Hip I).
    destruct ip; [congruence|reflexivity].
  - rewrite (span_digits_all ip ("." ++ fp) Hip dot_not_digit).
    destruct ip as [|c ip]; [congruence|]. simpl.
    rewrite <- (append_empty_r fp) at 1.
    rewrite (span_digits_all fp "" Hfp I).
    destruct fp as [|c' fp]; [congruence|reflexivity].
Qed.

Lemma length_append (a b : string) :
  String.length (a ++ b) = (String.length a + String.length b)%nat.
Proof. induction a as [|c a IH]; simpl; congruence. Qed.

(** Passing the characters of a match leaves the scan of what follows. *)
Lemma findall_from_skip (m r : string) :
  findall_from (String.length m) (m ++ r) = findall r.
Proof.
  induction m as [|c m IH]; simpl; [|exact IH].
  destruct r; reflexivity.
Qed.

(** The two equations of the scan. *)
Lemma findall_match (s m r : string) :
  match_number s = Some (m, r) -> findall s = m :: findall r.
Proof.
  intros H.
  destruct (match_number_spec _ _ _ H) as (Hs & _ & _).
  destruct (match_number_nonempty _ _ _ H) as (c & m' & ->).
  subst s; unfold findall at 1.
  change (String c m' ++ r) with (String c (m' ++ r)) in *.
  cbn [findall_from]. rewrite H. f_equal.
  simpl. rewrite Nat.sub_0_r. apply findall_from_skip.
Qed.

Lemma findall_nomatch (c : ascii) (s : string) :
  is_digit c = false -> findall (String c s) = findall s.
Proof.
  intros Hc. apply match_number_head with (s := s) in Hc.
  unfold findall; cbn [findall_from]. rewrite Hc. reflexivity.
Qed.

Lemma match_number_shorter (s m r : string) :
  match_number s = Some (m, r) -> (String.length r < String.length s)%nat.
Proof.
  intros H.
  destruct (match_number_spec _ _ _ H) as (-> & _ & _).
  destruct (match_number_nonempty _ _ _ H) as (c & m' & ->).
  rewrite length_append; simpl; lia.
Qed.

(** An induction principle that follows the scan. *)
Lemma findall_ind (Q : string -> list string -> Prop) :
  Q "" [] ->
  (forall c s, is_digit c = false -> Q s (findall s) ->
               Q (String c s) (findall s)) ->
  (forall s m r, match_number s = Some (m, r) -> Q r (findall r) ->
                 Q s (m :: findall r)) ->
  forall text, Q text (findall text).
Proof.
  intros Hnil Hskip Hmatch text.
  remember (String.length text) as n eqn:Hn.
  revert text Hn; induction n as [n IH] using lt_wf_ind; intros text ->.
  destruct text as [|c s]; [exact Hnil|].
  destruct (match_number (String c s)) as [[m r]|] eqn:Hm.
  - rewrite (findall_match _ _ _ Hm).
    apply Hmatch; [exact Hm|].
    apply (IH _ (match_number_shorter _ _ _ Hm) r eq_refl).
  - apply match_number_head in Hm.
    rewrite (findall_nomatch _ _ Hm).
    apply Hskip; [exact Hm|].
    apply (IH (String.length s)); simpl; auto.
Qed.

(** Every match is a numeral. *)
Lemma findall_numerals (text : string) :
  Forall (fun tok => exists n k, numeral tok n k) (findall text).
Proof.
  apply (findall_ind (fun _ toks => Forall _ toks)); auto.
  intros s m r Hm IH; constructor; [|exact IH].
  apply (match_number_spec _ _ _ Hm).
Qed.

Lemma finds_skip (c : ascii) (toks : list string) (text : string) :
  is_digit c = false -> finds text toks -> finds (String c text) toks.
Proof.
  intros Hc [gap Hgap|gap tok n k text' toks' Hgap Hn Hmax Hrest].
  - apply finds_nil; simpl; rewrite Hc; exact Hgap.
  - apply (finds_cons (String c gap) tok n k); auto.
    simpl; rewrite Hc; exact Hgap.
Qed.

(** [findall] computes the relation ... *)
Lemma findall_finds (text : string) : finds text (findall text).
Proof.
  apply findall_ind.
  - apply finds_nil; reflexivity.
  - intros c s Hc IH; apply finds_skip; assumption.
  - intros s m r Hm IH.
    destruct (match_number_spec _ _ _ Hm) as (-> & (n & k & Hn) & Hmax).
    apply (finds_cons "" m n k); auto.
Qed.

Lemma findall_gap (gap s : string) :
  has_digit gap = false -> findall (gap ++ s) = findall s.
Proof.
  induction gap as [|c gap IH]; simpl; [reflexivity|].
  intros H; apply orb_false_iff in H as [Hc Hgap].
  rewrite findall_nomatch by exact Hc. auto.
Qed.

(** ... and the relation has no other solution. *)
Lemma finds_findall (text : string) (toks : list string) :
  finds text toks -> toks = findall text.
Proof.
  induction 1 as [gap Hgap|gap tok n k text toks Hgap Hn Hmax _ IH].
  - symmetry. rewrite <- (append_empty_r gap), findall_gap by exact Hgap.
    reflexivity.
  - rewrite findall_gap by exact Hgap.
    rewrite (findall_match _ _ _ (match_number_complete _ _ _ _ Hn Hmax)).
    congruence.
Qed.

(** There is a match exactly when the text holds a digit. *)
Lemma findall_nil_iff (text : string) :
  findall text = [] <-> has_digit text = false.
Proof.
  apply (findall_ind (fun s toks => toks = [] <-> has_digit s = false)).
  - tauto.
  - intros c s Hc IH; simpl; rewrite Hc; exact IH.
  - intros s m r Hm _; split; [discriminate|].
    destruct s as [|c s]; [discriminate|].
    simpl; intros H; apply orb_false_iff in H as [Hc _].
    apply match_number_head with (s := s) in Hc; congruence.
Qed.

(** ** Facts on [extract_number] *)

Lemma last_Forall {A : Type} (P : A -> Prop) (l : list A) (x : A) :
  Forall P l -> last l = Some x -> P x.
Proof.
  intros Hl Hx. apply last_Some in Hx as [l' ->].
  apply Forall_app in Hl as [_ Hl]. now inversion Hl.
Qed.

(** [extract_number] never raises; it returns the value of the last match. *)
Lemma extract_number_spec (text : string) :
  match last (findall text) with
  | Some tok => exists n k, numeral tok n k
                  /\ extract_number text = Ok (Some (F64.of_decimal n k))
  | None => extract_number text = Ok None
  end.
Proof.
  unfold extract_number.
  destruct (last (findall text)) as [tok|] eqn:Hlast; [|reflexivity].
  destruct (last_Forall _ _ _ (findall_numerals text) Hlast) as (n & k & Hn).
  exists n, k; split; [exact Hn|].
  rewrite (py_float_numeral _ _ _ Hn); reflexivity.
Qed.

Lemma extract_number_total (text : string) :
  exists x, extract_number text = Ok x.
Proof.
  pose proof (extract_number_spec text) as H.
  destruct (last (findall text)); [destruct H as (n & k & _ & ->)|]; eauto.
Qed.

Lemma extract_number_nonneg (text : string) (v : float) :
  extract_number text = Ok (Some v) -> F64.nonneg v.
Proof.
  pose proof (extract_number_spec text) as H.
  destruct (last (findall text)).
  - destruct H as (n & k & Hn & ->). intros [= <-].
    apply of_decimal_nonneg, (numeral_nonneg _ _ _ Hn).
  - rewrite H; discriminate.
Qed.

(** ** Facts on [Counter] and [most_common(1)] *)

Section CounterFacts.
Context {A : Type} (key_eqb : A -> A -> bool).

Abbreviation add := (fun c x => counter_add key_eqb x c).
Abbreviation occ := (occurrences key_eqb).
Abbreviation rest := (others key_eqb).

Lemma occurrences_cons (k x : A) (xs : list A) :
  occ k (x :: xs) = (if key_eqb k x then 1 else 0) + occ k xs.
Proof.
  unfold occurrences; simpl. destruct (key_eqb k x); simpl length; lia.
Qed.

(** Counting with the first key set apart: its count grows by its
    occurrences, and the other elements go to the rest of the counter. *)
Lemma fold_add_head (xs : list A) (k : A) (n : Z) (c : list (A * Z)) :
  fold_left add xs ((k, n) :: c)
  = (k, n + occ k xs) :: fold_left add (rest k xs) c.
Proof.
  revert n c; induction xs as [|y xs IH]; intros n c.
  - unfold occurrences; simpl. f_equal. f_equal. lia.
  - rewrite occurrences_cons. unfold others. cbn [fold_left counter_add List.filter].
    destruct (key_eqb k y); cbn [negb].
    + rewrite IH. unfold others. f_equal. f_equal. lia.
    + rewrite IH. unfold others. reflexivity.
Qed.

Lemma Counter_cons (x : A) (xs : list A) :
  Counter key_eqb (x :: xs)
  = (x, 1 + occ x xs) :: Counter key_eqb (rest x xs).
Proof. unfold Counter; simpl. apply fold_add_head. Qed.

Lemma others_length (x : A) (xs : list A) :
  (length (rest x xs) <= length xs)%nat.
Proof. apply List.filter_length_le. Qed.

(** The first maximum: strictly above what comes before it, and not below
    what comes after it. *)
Lemma max_by_count_spec (c before mid : list (A * Z)) (best : A * Z) :
  (forall kv, In kv before -> snd kv < snd best) ->
  (forall kv, In kv mid -> snd kv <= snd best) ->
  exists l1 l2,
    (before ++ best :: mid ++ c = l1 ++ max_by_count best c :: l2)%list
    /\ (forall kv, In kv l1 -> snd kv < snd (max_by_count best c))
    /\ (forall kv, In kv l2 -> snd kv <= snd (max_by_count best c)).
Proof.
  revert before mid best; induction c as [|kv c IH]; intros before mid best Hb Hm.
  - exists before, mid. rewrite app_nil_r. auto.
  - cbn [max_by_count]. destruct (snd best <? snd kv) eqn:Hlt.
    + apply Z.ltb_lt in Hlt.
      destruct (IH (before ++ best :: mid)%list [] kv) as (l1 & l2 & Heq & H1 & H2).
      * intros kv' Hin. apply in_app_iff in Hin as [Hin|[<-|Hin]];
          [specialize (Hb _ Hin)|  |specialize (Hm _ Hin)]; lia.
      * intros kv' [].
      * exists l1, l2. split; [|auto].
        rewrite <- Heq. rewrite <- !app_assoc. reflexivity.
    + apply Z.ltb_ge in Hlt.
      destruct (IH before (mid ++ [kv])%list best) as (l1 & l2 & Heq & H1 & H2).
      * exact Hb.
      * intros kv' Hin. apply in_app_iff in Hin as [Hin|[<-|[]]]; auto.
      * exists l1, l2. split; [|auto].
        rewrite <- Heq. rewrite <- !app_assoc. reflexivity.
Qed.

Lemma most_common_1_spec (c : list (A * Z)) :
  c <> [] ->
  exists top l1 l2,
    most_common_1 c = [top] /\ (c = l1 ++ top :: l2)%list
    /\ (forall kv, In kv l1 -> snd kv < snd top)
    /\ (forall kv, In kv l2 -> snd kv <= snd top).
Proof.
  destruct c as [|kv c]; [congruence|intros _].
  destruct (max_by_count_spec c [] [] kv) as (l1 & l2 & Heq & H1 & H2);
    [intros ? []|intros ? []|].
  exists (max_by_count kv c), l1, l2. auto.
Qed.

(** Splitting a list where its filtered image is split. *)
Lemma filter_split (f : A -> bool) (xs l1 l2 : list A) (a : A) :
  (List.filter f xs = l1 ++ a :: l2)%list ->
  exists xs1 xs2,
    (xs = xs1 ++ a :: xs2)%list /\ List.filter f xs1 = l1.
Proof.
  revert l1; induction xs as [|x xs IH]; intros l1 H; simpl in H.
  - destruct l1; discriminate.
  - destruct (f x) eqn:Hx.
    + destruct l1 as [|b l1]; simpl in H; injection H as -> H.
      * exists [], xs. auto.
      * destruct (IH _ H) as (xs1 & xs2 & -> & <-).
        exists (b :: xs1), xs2. simpl. rewrite Hx. auto.
    + destruct (IH _ H) as (xs1 & xs2 & -> & <-).
      exists (x :: xs1), xs2. simpl. rewrite Hx. auto.
Qed.

Variable P : A -> Prop.
Hypothesis key_eqb_eq :
  forall x y, P x -> P y -> (key_eqb x y = true <-> x = y).

Lemma key_eqb_refl (x : A) : P x -> key_eqb x x = true.
Proof. intros Hx; apply key_eqb_eq; auto. Qed.

Lemma occurrences_others (k x : A) (xs : list A) :
  P k -> P x -> Forall P xs -> key_eqb x k = false ->
  occ k (rest x xs) = occ k xs.
Proof.
  intros Hk Hx Hxs Hne; induction Hxs as [|y xs Hy Hxs IH]; [reflexivity|].
  unfold others in *; cbn [List.filter].
  destruct (key_eqb x y) eqn:Hxy; cbn [negb].
  - rewrite occurrences_cons, IH.
    apply key_eqb_eq in Hxy; auto; subst y.
    destruct (key_eqb k x) eqn:Hkx; [|lia].
    apply key_eqb_eq in Hkx; auto; subst k.
    rewrite key_eqb_refl in Hne; auto; discriminate.
  - rewrite !occurrences_cons, IH; reflexivity.
Qed.

Lemma Forall_others (x : A) (xs : list A) :
  Forall P xs -> Forall P (rest x xs).
Proof.
  intros H; apply List.Forall_forall; intros y Hy.
  apply List.filter_In in Hy as [Hy _].
  rewrite List.Forall_forall in H; auto.
Qed.

(** What [Counter] holds: each element once, with its number of
    occurrences, in the order of the first occurrences. *)
Lemma Counter_spec (xs : list A) :
  Forall P xs ->
  (forall k n, In (k, n) (Counter key_eqb xs) -> In k xs /\ n = occ k xs)
  /\ (forall y, In y xs -> exists n, In (y, n) (Counter key_eqb xs))
  /\ (forall c1 k n c2,
        (Counter key_eqb xs = c1 ++ (k, n) :: c2)%list ->
        exists pre post,
          (xs = pre ++ k :: post)%list
          /\ forall y, In y pre -> exists n', In (y, n') c1).
Proof.
  remember (length xs) as len eqn:Hlen.
  revert xs Hlen; induction len as [len IH] using lt_wf_ind; intros xs -> HP.
  destruct xs as [|x xs].
  { split; [intros k n []|split; [intros y []|]].
    intros [|? ?] k n c2 H; discriminate. }
  inversion HP as [|? ? Hx Hxs]; subst.
  assert (Hlt : (length (rest x xs) < length (x :: xs))%nat)
    by (pose proof (others_length x xs); simpl; lia).
  destruct (IH _ Hlt _ eq_refl (Forall_others x xs Hxs)) as (I1 & I2 & I3).
  rewrite Counter_cons.
  assert (Hin_rest : forall y, In y (rest x xs) -> In y xs /\ key_eqb x y = false).
  { intros y Hy. apply List.filter_In in Hy as [Hy Hb].
    split; [exact Hy|]. now destruct (key_eqb x y). }
  assert (HPin : forall y, In y xs -> P y)
    by (intros y Hy; rewrite List.Forall_forall in Hxs; auto).
  split; [|split].
  - intros k n [[= <- <-]|Hin].
    + split; [now left|]. rewrite occurrences_cons, key_eqb_refl; auto.
    + destruct (I1 _ _ Hin) as (Hk & ->).
      destruct (Hin_rest _ Hk) as (Hk' & Hne).
      split; [now right|].
      rewrite occurrences_others by auto.
      rewrite occurrences_cons.
      destruct (key_eqb k x) eqn:Hkx; [|reflexivity].
      apply key_eqb_eq in Hkx; auto; subst k.
      rewrite key_eqb_refl in Hne; auto; discriminate.
  - intros y [<-|Hy]; [eexists; left; reflexivity|].
    destruct (key_eqb x y) eqn:Hxy.
    + apply key_eqb_eq in Hxy; auto; subst y. eexists; left; reflexivity.
    + destruct (I2 y) as (n & Hn).
      * apply List.filter_In. split; [exact Hy|]. now rewrite Hxy.
      * exists n; right; exact Hn.
  - intros c1 k n c2 Heq.
    destruct c1 as [|h c1]; simpl in Heq.
    + injection Heq as <- _ _. exists [], xs. split; [reflexivity|intros y []].
    + injection Heq as <- Heq.
      destruct (I3 _ _ _ _ Heq) as (pre' & post' & Hsplit & Hpre).
      destruct (filter_split _ _ _ _ _ Hsplit) as (xs1 & xs2 & -> & Hf).
      exists (x :: xs1), xs2. split; [reflexivity|].
      intros y [<-|Hy]; [eexists; left; reflexivity|].
      destruct (key_eqb x y) eqn:Hxy.
      * apply key_eqb_eq in Hxy; auto.
        -- subst y. eexists; left; reflexivity.
        -- apply HPin, in_app_iff; auto.
      * destruct (Hpre y) as (n' & Hn').
        -- rewrite <- Hf. apply List.filter_In. split; [exact Hy|].
           now rewrite Hxy.
        -- exists n'; right; exact Hn'.
Qed.

(** The vote: the value picked is an element with the most occurrences,
    and every element met before its first occurrence has fewer. *)
Lemma majority_spec (xs : list A) :
  Forall P xs -> xs <> [] ->
  exists m pre post,
    most_common_1 (Counter key_eqb xs) = [(m, occ m xs)]
    /\ (xs = pre ++ m :: post)%list
    /\ (forall y, In y pre -> occ y xs < occ m xs)
    /\ (forall y, In y xs -> occ y xs <= occ m xs).
Proof.
  intros HP Hne.
  destruct (Counter_spec xs HP) as (I1 & I2 & I3).
  assert (Hc : Counter key_eqb xs <> []).
  { destruct xs as [|x xs]; [congruence|]. rewrite Counter_cons. discriminate. }
  destruct (most_common_1_spec _ Hc) as ([m n] & l1 & l2 & Htop & Heq & H1 & H2).
  destruct (I3 _ _ _ _ Heq) as (pre & post & Hsplit & Hpre).
  assert (Hn : n = occ m xs).
  { apply (I1 m n). rewrite Heq. apply in_app_iff. right; now left. }
  subst n. exists m, pre, post. split; [exact Htop|]. split; [exact Hsplit|].
  split.
  - intros y Hy. destruct (Hpre y Hy) as (n' & Hn').
    assert (n' = occ y xs) as ->.
    { apply (I1 y n'). rewrite Heq. apply in_app_iff. now left. }
    apply (H1 _ Hn').
  - intros y Hy. destruct (I2 y Hy) as (n' & Hn').
    assert (n' = occ y xs) as -> by (apply (I1 y n'); exact Hn').
    rewrite Heq in Hn'. apply in_app_iff in Hn' as [Hn'|[Hn'|Hn']].
    + specialize (H1 _ Hn'). simpl in *. lia.
    + injection Hn' as _ ->. simpl. lia.
    + apply (H2 _ Hn').
Qed.

End CounterFacts.

(** ** Reasoning on runs *)

Lemma bind_Ok_inv {A B : Type} (m : M A) (f : A -> M B)
    (w w' : world) (b : B) :
  (m ≫= f) w = (Ok b, w') ->
  exists a w1, m w = (Ok a, w1) /\ f a w1 = (Ok b, w').
Proof.
  unfold mbind, M_bind. destruct (m w) as [[a|e] w1]; [eauto|discriminate].
Qed.

Lemma bind_Ok {A B : Type} (m : M A) (f : A -> M B)
    (w w1 : world) (a : A) :
  m w = (Ok a, w1) -> (m ≫= f) w = f a w1.
Proof. unfold mbind, M_bind. intros ->; reflexivity. Qed.

Lemma lift_Ok_inv {A : Type} (o : outcome A) (w w' : world) (a : A) :
  lift o w = (Ok a, w') -> o = Ok a /\ w' = w.
Proof. unfold lift. intros [= -> ->]; auto. Qed.

Lemma ret_Ok_inv {A : Type} (x a : A) (w w' : world) :
  (mret x : M A) w = (Ok a, w') -> a = x /\ w' = w.
Proof. unfold mret, M_ret. intros [= -> ->]; auto. Qed.

Lemma fold_keep (extracted : list (option float)) (answers : list float) :
  fold_left keep extracted answers = (answers ++ omap kept extracted)%list.
Proof.
  revert answers; induction extracted as [|x xs IH]; intros answers; simpl.
  - now rewrite app_nil_r.
  - rewrite IH. unfold keep, kept, truthy.
    destruct x as [f|]; [destruct (F64.is_zero f)|]; simpl;
      rewrite <- ?app_assoc; reflexivity.
Qed.

Lemma retained_omap (extracted : list (option float)) :
  retained extracted = omap kept extracted.
Proof. unfold retained. now rewrite fold_keep. Qed.

(** An answer is kept exactly when it was extracted and is not zero. *)
Lemma retained_iff (extracted : list (option float)) (f : float) :
  In f (retained extracted)
  <-> In (Some f) extracted /\ F64.is_zero f = false.
Proof.
  rewrite retained_omap. rewrite <- !list_elem_of_In, list_elem_of_omap.
  split.
  - intros (x & Hx & Hk). destruct x as [g|]; [|discriminate].
    simpl in Hk. destruct (F64.is_zero g) eqn:Hz; [discriminate|].
    injection Hk as <-. auto.
  - intros (Hx & Hz). exists (Some f). split; [exact Hx|].
    simpl. now rewrite Hz.
Qed.

Section Runs.
Variable service : OpenAI -> nat -> request -> outcome string.
Variable client : OpenAI.

Lemma sample_answers_inv (p : string) (n : nat) (answers l : list float)
    (w w' : world) :
  sample_answers service client p n answers w = (Ok l, w') ->
  exists extracted,
    length extracted = n /\ extractions extracted
    /\ l = fold_left keep extracted answers.
Proof.
  revert answers w; induction n as [|n IH]; intros answers w H; simpl in H.
  - apply ret_Ok_inv in H as [-> _]. exists []. repeat split. constructor.
  - apply bind_Ok_inv in H as (response & w1 & _ & H).
    apply bind_Ok_inv in H as (answer & w2 & Hx & H).
    apply lift_Ok_inv in Hx as [Hx _].
    destruct (IH _ _ H) as (extracted & Hlen & Hex & ->).
    exists (answer :: extracted). split; [simpl; congruence|].
    split; [constructor; eauto|reflexivity].
Qed.

(** What a completed call of [evaluate_problem] has computed. *)
Lemma evaluate_problem_inv (p : Problem) (w w' : world) (r : result) :
  evaluate_problem service client p w = (Ok r, w') ->
  exists det_response extracted,
    problem_text r = problem p
    /\ correct_answer r = answer p
    /\ extract_number det_response = Ok (deterministic_answer r)
    /\ (if truthy (deterministic_answer r)
        then close_to (deterministic_answer r) (answer p)
        else Ok false) = Ok (deterministic_correct r)
    /\ length extracted = 10%nat /\ extractions extracted
    /\ all_answers r = retained extracted
    /\ match all_answers r with
       | [] => majority_answer r = None /\ majority_correct r = false
       | _ :: _ =>
           exists top,
             getitem_list
               (most_common_1 (Counter F64.eqb (all_answers r))) 0 = Ok top
             /\ majority_answer r = Some (fst top)
             /\ within_tolerance (fst top) (answer p)
                = Ok (majority_correct r)
       end.
Proof.
  unfold evaluate_problem. intros H.
  apply bind_Ok_inv in H as (u1 & w1 & _ & H).
  apply bind_Ok_inv in H as (u2 & w2 & _ & H).
  apply bind_Ok_inv in H as (det_response & w3 & _ & H).
  apply bind_Ok_inv in H as (det_answer & w4 & Hdet & H).
  apply bind_Ok_inv in H as (det_correct & w5 & Hcorrect & H).
  apply bind_Ok_inv in H as (u3 & w6 & _ & H).
  apply bind_Ok_inv in H as (answers & w7 & Hans & H).
  apply bind_Ok_inv in H as ([maj maj_ok] & w8 & Hvote & H).
  apply lift_Ok_inv in Hdet as [Hdet _].
  apply lift_Ok_inv in Hcorrect as [Hcorrect _].
  apply sample_answers_inv in Hans as (extracted & Hlen & Hex & Hans).
  apply ret_Ok_inv in H as [-> _]. simpl.
  exists det_response, extracted.
  repeat (split; [assumption || reflexivity|]).
  destruct answers as [|x xs].
  - apply bind_Ok_inv in Hvote as (u4 & w9 & _ & Hvote).
    apply ret_Ok_inv in Hvote as [[= -> ->] _]. auto.
  - apply bind_Ok_inv in Hvote as (top & w9 & Htop & Hvote).
    apply bind_Ok_inv in Hvote as (ok & w10 & Htol & Hvote).
    apply bind_Ok_inv in Hvote as (u4 & w11 & _ & Hvote).
    apply bind_Ok_inv in Hvote as (u5 & w12 & _ & Hvote).
    apply lift_Ok_inv in Htop as [Htop _].
    apply lift_Ok_inv in Htol as [Htol _].
    apply ret_Ok_inv in Hvote as [[= -> ->] _].
    exists top. auto.
Qed.

Lemma retained_nonneg (extracted : list (option float)) :
  extractions extracted -> Forall F64.nonneg (retained extracted).
Proof.
  intros Hex. apply List.Forall_forall. intros f Hf.
  apply retained_iff in Hf as [Hf _].
  unfold extractions in Hex. rewrite List.Forall_forall in Hex.
  destruct (Hex _ Hf) as (text & Htext).
  apply (extract_number_nonneg _ _ Htext).
Qed.

End Runs.

(** ** The extractor *)



Lemma nonneg_compare (v : float) :
  F64.nonneg v -> F64.leb F64.zero v = true /\ F64.ltb v F64.zero = false.
Proof. destruct v as [s|s| |s m e]; simpl; intros H; subst; auto; tauto. Qed.

(** ** The vote *)

Lemma majority_of_retained (extracted : list (option float)) :
  extractions extracted -> retained extracted <> [] ->
  exists m pre post,
    getitem_list (most_common_1 (Counter F64.eqb (retained extracted))) 0
    = Ok (m, occurrences F64.eqb m (retained extracted))
    /\ (retained extracted = pre ++ m :: post)%list
    /\ (forall y, In y pre ->
          occurrences F64.eqb y (retained extracted)
          < occurrences F64.eqb m (retained extracted))
    /\ (forall y, In y (retained extracted) ->
          occurrences F64.eqb y (retained extracted)
          <= occurrences F64.eqb m (retained extracted)).
Proof.
  intros Hex Hne.
  destruct (majority_spec F64.eqb F64.nonneg eqb_nonneg _
              (retained_nonneg _ Hex) Hne) as (m & pre & post & Htop & H).
  exists m, pre, post. rewrite Htop. auto.
Qed.

(** The vote of a completed call of [evaluate_problem]. *)
Lemma evaluate_problem_vote
    (service : OpenAI -> nat -> request -> outcome string) (client : OpenAI)
    (p : Problem) (w w' : world) (r : result) :
  evaluate_problem service client p w = (Ok r, w') ->
  match all_answers r with
  | [] => majority_answer r = None /\ majority_correct r = false
  | _ :: _ =>
      exists m pre post,
        majority_answer r = Some m
        /\ (all_answers r = pre ++ m :: post)%list
        /\ (forall y, In y pre ->
              occurrences F64.eqb y (all_answers r)
              < occurrences F64.eqb m (all_answers r))
        /\ (forall y, In y (all_answers r) ->
              occurrences F64.eqb y (all_answers r)
              <= occurrences F64.eqb m (all_answers r))
  end.
Proof.
  intros Hrun.
  destruct (evaluate_problem_inv _ _ _ _ _ _ Hrun)
    as (resp & extracted & _ & _ & _ & _ & _ & Hex & Hall & Hvote).
  destruct (all_answers r) as [|x xs] eqn:Hxs; [exact Hvote|].
  assert (Hne : retained extracted <> []) by (rewrite <- Hall; discriminate).
  destruct (majority_of_retained _ Hex Hne)
    as (m & pre & post & Htop & Hsplit & Hpre & Hmax).
  rewrite <- Hall in Htop, Hsplit, Hpre, Hmax.
  destruct Hvote as (top & Htop' & Hmaj & _).
  rewrite Htop in Htop'. injection Htop' as <-.
  exists m, pre, post. auto.
Qed.

Lemma evaluate_problem_majority_In
    (service : OpenAI -> nat -> request -> outcome string) (client : OpenAI)
    (p : Problem) (w w' : world) (r : result) (m : float) :
  evaluate_problem service client p w = (Ok r, w') ->
  majority_answer r = Some m -> In m (all_answers r).
Proof.
  intros Hrun Hm. pose proof (evaluate_problem_vote _ _ _ _ _ _ Hrun) as H.
  destruct (all_answers r) as [|x xs]; [destruct H; congruence|].
  destruct H as (m' & pre & post & Hm' & -> & _).
  assert (m' = m) as -> by congruence.
  apply in_app_iff. right; now left.
Qed.

(** C9. In every result of the evaluator whose [all_answers] is not empty,
    [majority_answer] is one of the [all_answers]. *)
Theorem majority_answer_in_all_answers
    (service : OpenAI -> nat -> request -> outcome string) (client : OpenAI)
    (p : Problem) (w w' : world) (r : result) :
  evaluate_problem service client p w = (Ok r, w') ->
  all_answers r <> [] ->
  exists m, majority_answer r = Some m /\ In m (all_answers r).
Proof.
  intros Hrun Hne.
  pose proof (evaluate_problem_vote _ _ _ _ _ _ Hrun) as H.
  destruct (all_answers r) as [|x xs] eqn:Hxs; [congruence|].
  destruct H as (m & pre & post & Hm & Hsplit & _).
  exists m. split; [exact Hm|].
  rewrite <- Hxs. apply (evaluate_problem_majority_In _ _ _ _ _ _ _ Hrun Hm).
Qed.

(** C2. When some sampled answers were retained, the majority answer is a
    retained answer with the highest number of occurrences, and every answer
    met before its first occurrence has strictly fewer (a tie goes to the
    answer met first); the answers 14, 14, 15, 14, 20 give 14. When none was
    retained, the majority answer is [None] and [majority_correct] is
    false. *)
Theorem majority_is_first_mode :
  (forall (service : OpenAI -> nat -> request -> outcome string)
          (client : OpenAI) (p : Problem) (w w' : world) (r : result),
     evaluate_problem service client p w = (Ok r, w') ->
     match all_answers r with
     | [] => majority_answer r = None /\ majority_correct r = false
     | _ :: _ =>
         exists m pre post,
           majority_answer r = Some m
           /\ (all_answers r = pre ++ m :: post)%list
           /\ (forall y, In y pre ->
                 occurrences F64.eqb y (all_answers r)
                 < occurrences F64.eqb m (all_answers r))
           /\ (forall y, In y (all_answers r) ->
                 occurrences F64.eqb y (all_answers r)
                 <= occurrences F64.eqb m (all_answers r))
     end)
  /\ getitem_list
       (most_common_1
          (Counter F64.eqb
             (map F64.of_Z [14; 14; 15; 14; 20]))) 0
     = Ok (F64.of_Z 14, 3).
Proof.
  split; [|reflexivity].
  intros service client p w w' r. apply evaluate_problem_vote.
Qed.

(** ** The sign of the answers *)

(** C10. Whenever [extract_number] returns a value, the value is not below
    zero; so the deterministic answer, the sampled answers and the majority
    answer of a result are never below zero. *)
Theorem extracted_values_nonneg :
  (forall (text : string) (v : float),
     extract_number text = Ok (Some v) ->
     F64.leb F64.zero v = true /\ F64.ltb v F64.zero = false)
  /\ (forall (service : OpenAI -> nat -> request -> outcome string)
             (client : OpenAI) (p : Problem) (w w' : world) (r : result)
             (v : float),
        evaluate_problem service client p w = (Ok r, w') ->
        deterministic_answer r = Some v \/ In v (all_answers r)
          \/ majority_answer r = Some v ->
        F64.leb F64.zero v = true /\ F64.ltb v F64.zero = false).
Proof.
  split.
  - intros text v H. apply nonneg_compare, (extract_number_nonneg _ _ H).
  - intros service client p w w' r v Hrun Hv. apply nonneg_compare.
    destruct (evaluate_problem_inv _ _ _ _ _ _ Hrun)
      as (resp & extracted & _ & _ & Hdet & _ & _ & Hex & Hall & _).
    assert (Hin : forall x, In x (all_answers r) -> F64.nonneg x).
    { intros x Hx. rewrite Hall in Hx.
      pose proof (retained_nonneg _ Hex) as HF.
      rewrite List.Forall_forall in HF. auto. }
    destruct Hv as [Hv|[Hv|Hv]].
    + rewrite Hv in Hdet. apply (extract_number_nonneg _ _ Hdet).
    + auto.
    + apply Hin, (evaluate_problem_majority_In _ _ _ _ _ _ _ Hrun Hv).
Qed.

Lemma extracted_values_nonneg_witness :
  extract_number "3 + 4 = 7" = Ok (Some (F64.of_Z 7))
  /\ F64.leb F64.zero (F64.of_Z 7) = true
  /\ F64.ltb (F64.of_Z 7) F64.zero = false.
Proof.
  split; [reflexivity|].
  apply (proj1 extracted_values_nonneg "3 + 4 = 7"). reflexivity.
Defined.

(** A run on the cars problem whose samples give 14, 14, 15, 14 and 20. *)
Lemma majority_is_first_mode_witness :
  exists r w',
    evaluate_problem
      (scripted ["35 / 5 * 2 = 14"; "14"; "14 motorcycles"; "15"; "14"; "20"])
      test_client cars blank = (Ok r, w')
    /\ all_answers r = map F64.of_Z [14; 14; 15; 14; 20]
    /\ exists m pre post,
         majority_answer r = Some m
         /\ (all_answers r = pre ++ m :: post)%list
         /\ (forall y, In y pre ->
               occurrences F64.eqb y (all_answers r)
               < occurrences F64.eqb m (all_answers r))
         /\ (forall y, In y (all_answers r) ->
               occurrences F64.eqb y (all_answers r)
               <= occurrences F64.eqb m (all_answers r)).
Proof.
  destruct (evaluate_problem _ test_client cars blank) as [[r|e] w'] eqn:Hrun;
    [|vm_compute in Hrun; discriminate Hrun].
  exists r, w'. split; [reflexivity|].
  pose proof (proj1 majority_is_first_mode _ _ _ _ _ _ Hrun) as H.
  assert (Hall : all_answers r = map F64.of_Z [14; 14; 15; 14; 20])
    by (vm_compute in Hrun; injection Hrun as <- _; reflexivity).
  split; [exact Hall|].
  rewrite Hall in H |- *. exact H.
Defined.

Lemma majority_answer_in_all_answers_witness :
  exists r w',
    evaluate_problem (constant "35 * 2 / 5 = 14") test_client cars blank
    = (Ok r, w')
    /\ all_answers r <> []
    /\ exists m, majority_answer r = Some m /\ In m (all_answers r).
Proof.
  destruct (evaluate_problem _ test_client cars blank) as [[r|e] w'] eqn:Hrun;
    [|vm_compute in Hrun; discriminate Hrun].
  exists r, w'. split; [reflexivity|].
  assert (Hne : all_answers r <> [])
    by (vm_compute in Hrun; injection Hrun as <- _; discriminate).
  split; [exact Hne|].
  apply (majority_answer_in_all_answers _ _ _ _ _ _ Hrun Hne).
Defined.

(** ** The tolerance rule *)

Lemma tolerance_63_65 :
  within_tolerance (F64.of_decimal 6365 2) (Float (F64.of_decimal 636 1))
  = Ok true.
Proof. reflexivity. Qed.

Lemma tolerance_63_5 :
  within_tolerance (F64.of_decimal 635 1) (Float (F64.of_decimal 636 1))
  = Ok false.
Proof. reflexivity. Qed.

(** The rule decides [majority_correct] whenever there is a majority answer. *)
Lemma majority_correct_rule
    (service : OpenAI -> nat -> request -> outcome string) (client : OpenAI)
    (p : Problem) (w w' : world) (r : result) (m : float) :
  evaluate_problem service client p w = (Ok r, w') ->
  majority_answer r = Some m ->
  within_tolerance m (answer p) = Ok (majority_correct r).
Proof.
  intros Hrun Hm.
  destruct (evaluate_problem_inv _ _ _ _ _ _ Hrun)
    as (_ & _ & _ & _ & _ & _ & _ & _ & _ & Hvote).
  destruct (all_answers r); [destruct Hvote; congruence|].
  destruct Hvote as (top & _ & Hm' & Htol).
  congruence.
Qed.

(** The rule decides [deterministic_correct] for an extracted answer that is
    not zero. *)
Lemma deterministic_correct_rule
    (service : OpenAI -> nat -> request -> outcome string) (client : OpenAI)
    (p : Problem) (w w' : world) (r : result) (v : float) :
  evaluate_problem service client p w = (Ok r, w') ->
  deterministic_answer r = Some v -> F64.is_zero v = false ->
  within_tolerance v (answer p) = Ok (deterministic_correct r).
Proof.
  intros Hrun Hv Hnz.
  destruct (evaluate_problem_inv _ _ _ _ _ _ Hrun)
    as (_ & _ & _ & _ & _ & Hrule & _).
  rewrite Hv in Hrule. simpl in Hrule. rewrite Hnz in Hrule. exact Hrule.
Qed.

(** An extracted zero is marked wrong whatever the correct answer. *)
Lemma deterministic_correct_zero
    (service : OpenAI -> nat -> request -> outcome string) (client : OpenAI)
    (p : Problem) (w w' : world) (r : result) (v : float) :
  evaluate_problem service client p w = (Ok r, w') ->
  deterministic_answer r = Some v -> F64.is_zero v = true ->
  deterministic_correct r = false.
Proof.
  intros Hrun Hv Hz.
  destruct (evaluate_problem_inv _ _ _ _ _ _ Hrun)
    as (_ & _ & _ & _ & _ & Hrule & _).
  rewrite Hv in Hrule. simpl in Hrule. rewrite Hz in Hrule.
  simpl in Hrule. congruence.
Qed.

(** On the ten problems of the benchmark the rule decides
    [deterministic_correct] for every extracted answer: none of their answers
    is within the tolerance of zero. *)
Lemma deterministic_correct_on_PROBLEMS
    (service : OpenAI -> nat -> request -> outcome string) (client : OpenAI)
    (p : Problem) (w w' : world) (r : result) (v : float) :
  In p PROBLEMS ->
  evaluate_problem service client p w = (Ok r, w') ->
  deterministic_answer r = Some v ->
  within_tolerance v (answer p) = Ok (deterministic_correct r).
Proof.
  intros Hp Hrun Hv.
  destruct (F64.is_zero v) eqn:Hz.
  - rewrite (deterministic_correct_zero _ _ _ _ _ _ _ Hrun Hv Hz).
    destruct (evaluate_problem_inv _ _ _ _ _ _ Hrun)
      as (resp & _ & _ & _ & Hdet & _).
    rewrite Hv in Hdet. apply extract_number_nonneg in Hdet.
    destruct v as [[]| | |]; try discriminate; simpl in Hdet; try discriminate.
    simpl in Hp.
    repeat (destruct Hp as [<-|Hp]; [reflexivity|]). destruct Hp.
  - apply (deterministic_correct_rule _ _ _ _ _ _ _ Hrun Hv Hz).
Qed.


(** ** Which answers enter the vote *)

(** The loop keeps an extraction exactly when it gave a number other than
    zero. *)
Lemma all_answers_iff
    (service : OpenAI -> nat -> request -> outcome string) (client : OpenAI)
    (p : Problem) (w w' : world) (r : result) :
  evaluate_problem service client p w = (Ok r, w') ->
  exists extracted,
    length extracted = 10%nat /\ extractions extracted
    /\ all_answers r = omap kept extracted
    /\ forall f, In f (all_answers r)
         <-> In (Some f) extracted /\ F64.is_zero f = false.
Proof.
  intros Hrun.
  destruct (evaluate_problem_inv _ _ _ _ _ _ Hrun)
    as (_ & extracted & _ & _ & _ & _ & Hlen & Hex & Hall & _).
  exists extracted. rewrite Hall.
  split; [exact Hlen|]. split; [exact Hex|].
  split; [apply retained_omap|]. intros f; apply retained_iff.
Qed.

(** C3 (the code departs from it). Every sampled response is "The answer
    is 0": each extraction succeeds with 0.0, yet no answer is retained and
    the vote reports that the extraction failed. *)
Theorem zero_answers_dropped :
  exists r w',
    evaluate_problem (constant "The answer is 0") test_client profit blank
    = (Ok r, w')
    /\ extract_number "The answer is 0" = Ok (Some F64.zero)
    /\ all_answers r = []
    /\ majority_answer r = None
    /\ last (console w')
       = Some [Text "Majority vote: Failed to extract answers"].
Proof.
  destruct (evaluate_problem _ test_client profit blank)
    as [[r|e] w'] eqn:Hrun; [|vm_compute in Hrun; discriminate Hrun].
  exists r, w'. split; [reflexivity|].
  vm_compute in Hrun. injection Hrun as <- <-.
  repeat split; reflexivity.
Qed.

(** ** The two early returns *)

(** The program as a whole builds the client before [main] runs: when the
    constructor accepts the key it is given, the run is that of [main]; when
    it raises, the run stops there. *)
Lemma script_client_accepted
    (OpenAI_new : option string -> outcome OpenAI)
    (service : OpenAI -> nat -> request -> outcome string)
    (w : world) (client : OpenAI) :
  OpenAI_new (environ w !! "OPENAI_API_KEY") = Ok client ->
  script OpenAI_new service w = main service client w.
Proof.
  intros Hnew. unfold script, getenv, lift, mbind, M_bind at 1 2.
  rewrite Hnew. reflexivity.
Qed.

Lemma script_client_rejected
    (OpenAI_new : option string -> outcome OpenAI)
    (service : OpenAI -> nat -> request -> outcome string)
    (w : world) (e : exn) :
  OpenAI_new (environ w !! "OPENAI_API_KEY") = Raise e ->
  script OpenAI_new service w = (Raise e, w).
Proof.
  intros Hnew. unfold script, getenv, lift, mbind, M_bind at 1 2.
  rewrite Hnew. reflexivity.
Qed.

Lemma main_no_credential
    (service : OpenAI -> nat -> request -> outcome string) (client : OpenAI)
    (w : world) :
  environ w !! "OPENAI_API_KEY" = None ->
  main service client w
  = (Ok tt, {| environ := environ w; files := files w;
               console := console w ++ [credential_message];
               sent := sent w |}).
Proof.
  intros Hkey. unfold main, getenv, mbind, M_bind. rewrite Hkey. reflexivity.
Qed.



(** The same holds for an empty credential. *)
Lemma main_with_empty_credential
    (service : OpenAI -> nat -> request -> outcome string) (client : OpenAI)
    (w : world) :
  environ w !! "OPENAI_API_KEY" = Some "" ->
  main service client w
  = (Ok tt, {| environ := environ w; files := files w;
               console := console w ++ [credential_message];
               sent := sent w |}).
Proof.
  intros Hkey. unfold main, getenv, mbind, M_bind. rewrite Hkey. reflexivity.
Qed.

(** C8. When the results file does not exist, the reporter does not raise,
    prints its message and writes no file, so no image. *)
Theorem report_without_results (w : world) :
  files w !! "problems.json" = None ->
  exists w',
    create_accuracy_chart w = (Ok tt, w')
    /\ console w' = (console w ++ [missing_file_message])%list
    /\ files w' = files w
    /\ sent w' = sent w
    /\ environ w' = environ w.
Proof.
  intros Hfile. eexists. split.
  - unfold create_accuracy_chart, try_except_FileNotFoundError, read_json,
      mbind, M_bind.
    rewrite Hfile. reflexivity.
  - repeat split.
Qed.

Lemma report_without_results_witness :
  files blank !! "problems.json" = None
  /\ exists w',
       create_accuracy_chart blank = (Ok tt, w')
       /\ console w' = (console blank ++ [missing_file_message])%list
       /\ files w' = files blank
       /\ sent w' = sent blank
       /\ environ w' = environ blank.
Proof.
  split; [reflexivity|].
  apply (report_without_results blank). reflexivity.
Defined.

(** ** Runs that complete *)

Lemma bind_total {A B : Type} (m : M A) (f : A -> M B) (w : world) :
  (exists a w1, m w = (Ok a, w1)) ->
  (forall a w1, exists b w', f a w1 = (Ok b, w')) ->
  exists b w', (m ≫= f) w = (Ok b, w').
Proof.
  intros (a & w1 & Hm) Hf. rewrite (bind_Ok _ _ _ _ _ Hm). apply Hf.
Qed.

Lemma print_total (l : line) (w : world) :
  exists u w1, print l w = (Ok u, w1).
Proof. unfold print. eauto. Qed.

Lemma lift_total {A : Type} (o : outcome A) (w : world) :
  (exists a, o = Ok a) -> exists a w1, lift o w = (Ok a, w1).
Proof. intros [a ->]. unfold lift. eauto. Qed.

Section Totality.
Variable service : OpenAI -> nat -> request -> outcome string.
Variable client : OpenAI.

(** The service answers every request. *)
Hypothesis service_answers :
  forall (n : nat) (req : request), exists text, service client n req = Ok text.

Lemma get_response_total (p : string) (t : number) (w : world) :
  exists text w1, get_response service client p t w = (Ok text, w1).
Proof.
  unfold get_response.
  destruct (service_answers (length (sent w))
              {| model := "gpt-3.5-turbo";
                 prompt := "Solve: " ++ p ++ nl ++ nl ++ "Let's think step-by-step:";
                 temperature := t; max_tokens := 300 |}) as [text ->].
  eauto.
Qed.

Lemma sample_answers_total (p : string) (n : nat) (answers : list float)
    (w : world) :
  exists l w1, sample_answers service client p n answers w = (Ok l, w1).
Proof.
  revert answers w; induction n as [|n IH]; intros answers w; cbn [sample_answers].
  - unfold mret, M_ret. eauto.
  - apply bind_total; [apply get_response_total|intros response w1].
    apply bind_total; [apply lift_total, extract_number_total|intros answer w2].
    apply IH.
Qed.

Lemma within_tolerance_total (x : float) (correct : number) :
  (exists c, as_float correct = Ok c) ->
  exists b, within_tolerance x correct = Ok b.
Proof. intros [c Hc]. unfold within_tolerance. rewrite Hc. simpl. eauto. Qed.

(** [evaluate_problem] returns a result whenever the correct answer is a
    float or an integer in the range of the floats. *)
Lemma evaluate_problem_total (p : Problem) (w : world) :
  (exists c, as_float (answer p) = Ok c) ->
  exists r w', evaluate_problem service client p w = (Ok r, w').
Proof.
  intros Hc. unfold evaluate_problem.
  apply bind_total; [apply print_total|intros _ w1].
  apply bind_total; [apply print_total|intros _ w2].
  apply bind_total; [apply get_response_total|intros det_response w3].
  apply bind_total; [apply lift_total, extract_number_total|intros det_answer w4].
  apply bind_total.
  { apply lift_total. destruct det_answer as [f|]; simpl.
    - destruct (F64.is_zero f); simpl;
        [unfold mret, outcome_ret; eauto|apply within_tolerance_total, Hc].
    - unfold mret, outcome_ret; eauto. }
  intros det_correct w5.
  apply bind_total; [apply print_total|intros _ w6].
  apply bind_total; [apply sample_answers_total|intros answers w7].
  apply bind_total; [|intros [maj ok] w8; unfold mret, M_ret; eauto].
  destruct answers as [|x xs].
  - apply bind_total; [apply print_total|intros _ w8].
    unfold mret, M_ret; eauto.
  - apply bind_total.
    { apply lift_total. rewrite Counter_cons. simpl. eauto. }
    intros top w8.
    apply bind_total; [apply lift_total, within_tolerance_total, Hc|].
    intros ok w9.
    apply bind_total; [apply print_total|intros _ w10].
    apply bind_total; [apply print_total|intros _ w11].
    unfold mret, M_ret; eauto.
Qed.

Lemma run_problems_total (todo : list Problem) (i : Z) (results : list result)
    (det maj : Z) (w : world) :
  Forall (fun p => exists c, as_float (answer p) = Ok c) todo ->
  exists out w', run_problems service client i todo results det maj w = (Ok out, w').
Proof.
  intros Htodo. revert i results det maj w.
  induction Htodo as [|p todo Hp _ IH]; intros i results det maj w;
    cbn [run_problems].
  - unfold mret, M_ret; eauto.
  - apply bind_total; [apply print_total|intros _ w1].
    apply bind_total; [apply print_total|intros _ w2].
    apply bind_total; [apply evaluate_problem_total, Hp|intros r w3].
    apply IH.
Qed.

End Totality.

(** The answers of the ten problems are in the range of the floats. *)
Lemma PROBLEMS_in_range :
  Forall (fun p => exists c, as_float (answer p) = Ok c) PROBLEMS.
Proof. repeat constructor; simpl; eauto. Qed.

(** ** From the evaluator to the reporter *)

Lemma count_cons {A : Type} (f : A -> bool) (x : A) (l : list A) :
  count f (x :: l) = (if f x then 1 + count f l else count f l).
Proof. unfold count; simpl. destruct (f x); simpl length; lia. Qed.

Lemma count_if_deterministic (rs : list result) :
  count_if "deterministic_correct" (map result_dict rs)
  = Ok (count deterministic_correct rs).
Proof.
  induction rs as [|r rs IH]; [reflexivity|].
  rewrite count_cons. cbn [map count_if].
  change (getitem (result_dict r) "deterministic_correct")
    with (Ok (PBool (deterministic_correct r))).
  rewrite IH. reflexivity.
Qed.

Lemma count_if_majority (rs : list result) :
  count_if "majority_correct" (map result_dict rs)
  = Ok (count majority_correct rs).
Proof.
  induction rs as [|r rs IH]; [reflexivity|].
  rewrite count_cons. cbn [map count_if].
  change (getitem (result_dict r) "majority_correct")
    with (Ok (PBool (majority_correct r))).
  rewrite IH. reflexivity.
Qed.

(** What the reporter counts in a file of results. *)
Lemma count_correct_results (rs : list result) :
  count_correct (PList (map result_dict rs))
  = Ok (count deterministic_correct rs, count majority_correct rs,
        Z.of_nat (length rs)).
Proof.
  unfold count_correct. cbn [iter len mbind outcome_bind].
  rewrite count_if_deterministic, count_if_majority, length_map. reflexivity.
Qed.

Lemma read_saved_results (rs : list result) (w : world) :
  read_json "problems.json" (snd (save_results rs w))
  = (Ok (PList (map result_dict rs)), snd (save_results rs w)).
Proof.
  unfold save_results, write_json, read_json. cbn [snd files].
  rewrite lookup_insert_eq. reflexivity.
Qed.

(** The scores of the loop of [main] count the flags of its results. *)
Lemma run_problems_scores
    (service : OpenAI -> nat -> request -> outcome string) (client : OpenAI)
    (todo : list Problem) (i : Z) (results : list result) (det maj : Z)
    (w w' : world) (results' : list result) (det' maj' : Z) :
  run_problems service client i todo results det maj w
  = (Ok (results', det', maj'), w') ->
  exists new,
    (results' = results ++ new)%list
    /\ length new = length todo
    /\ det' = det + count deterministic_correct new
    /\ maj' = maj + count majority_correct new.
Proof.
  revert i results det maj w.
  induction todo as [|p todo IH]; intros i results det maj w H; cbn [run_problems] in H.
  - apply ret_Ok_inv in H as [[= -> -> ->] _].
    exists []. rewrite app_nil_r. unfold count; simpl. repeat split; lia.
  - apply bind_Ok_inv in H as (u1 & w1 & _ & H).
    apply bind_Ok_inv in H as (u2 & w2 & _ & H).
    apply bind_Ok_inv in H as (r & w3 & _ & H).
    apply IH in H as (new & -> & Hlen & -> & ->).
    exists (r :: new). rewrite <- app_assoc. rewrite !count_cons.
    split; [reflexivity|]. split; [simpl; congruence|].
    destruct (deterministic_correct r), (majority_correct r); split; lia.
Qed.

Lemma read_json_loaded (name : string) (v : pyval) (w : world) :
  files w !! name = Some (Json v) -> read_json name w = (Ok v, w).
Proof. unfold read_json. intros ->; reflexivity. Qed.

(** With the results loaded, the reporter counts and reports. *)
Lemma create_accuracy_chart_loaded (v : pyval) (w : world) :
  files w !! "problems.json" = Some (Json v) ->
  create_accuracy_chart w
  = match count_correct v with
    | Ok (det_correct, maj_correct, total) =>
        report det_correct maj_correct total w
    | Raise e => (Raise e, w)
    end.
Proof.
  intros Hfile. unfold create_accuracy_chart.
  rewrite (bind_Ok _ _ w w (Some v)).
  - unfold mbind, M_bind, lift.
    destruct (count_correct v) as [[[d m] t]|e]; reflexivity.
  - unfold try_except_FileNotFoundError.
    rewrite (bind_Ok _ _ w w v (read_json_loaded _ _ _ Hfile)). reflexivity.
Qed.

(** On an empty list of results the counts are zero and the accuracy is a
    division by zero. *)
Lemma create_accuracy_chart_no_results (w : world) :
  files w !! "problems.json" = Some (Json (PList [])) ->
  create_accuracy_chart w = (Raise ZeroDivisionError, w).
Proof.
  intros Hfile. rewrite (create_accuracy_chart_loaded _ _ Hfile). reflexivity.
Qed.

(** ** A whole run of the evaluator, then the reporter *)

(** A completed run of [main] with a credential: the loop ran over the ten
    problems, the summary shows its scores and the results are in the file. *)
Lemma main_inv
    (service : OpenAI -> nat -> request -> outcome string) (client : OpenAI)
    (w w' : world) :
  str_truthy (environ w !! "OPENAI_API_KEY") = true ->
  main service client w = (Ok tt, w') ->
  exists results det_score maj_score w1,
    run_problems service client 0 PROBLEMS [] 0 0 w
    = (Ok (results, det_score, maj_score), w1)
    /\ console w' = (console w1 ++ evaluator_summary det_score maj_score)%list
    /\ files w' = <["problems.json" := Json (PList (map result_dict results))]> (files w1)
    /\ sent w' = sent w1.
Proof.
  intros Hkey H. unfold main in H.
  apply bind_Ok_inv in H as (key & w0 & Hget & H).
  unfold getenv in Hget. injection Hget as <- <-.
  rewrite Hkey in H. cbn [negb] in H.
  apply bind_Ok_inv in H as ([[results det] maj] & w1 & Hrun & H).
  exists results, det, maj, w1. split; [exact Hrun|].
  unfold save_results, write_json, print, mbind, M_bind in H.
  injection H as <-. cbn [console files sent].
  unfold evaluator_summary. rewrite <- !app_assoc. auto.
Qed.

(** A completed run of [main], then the reporter on what it left: the
    reporter reports the scores that the evaluator printed. *)
Lemma main_then_report
    (service : OpenAI -> nat -> request -> outcome string) (client : OpenAI)
    (w w' : world) :
  str_truthy (environ w !! "OPENAI_API_KEY") = true ->
  main service client w = (Ok tt, w') ->
  exists det_score maj_score before,
    console w' = (before ++ evaluator_summary det_score maj_score)%list
    /\ create_accuracy_chart w' = report det_score maj_score 10 w'.
Proof.
  intros Hkey Hmain.
  destruct (main_inv _ _ _ _ Hkey Hmain)
    as (results & det & maj & w1 & Hrun & Hconsole & Hfiles & _).
  apply run_problems_scores in Hrun as (new & -> & Hlen & -> & ->).
  exists (0 + count deterministic_correct new),
         (0 + count majority_correct new), (console w1).
  split; [exact Hconsole|].
  rewrite (create_accuracy_chart_loaded (PList (map result_dict new))).
  - rewrite count_correct_results, Hlen. reflexivity.
  - rewrite Hfiles. apply lookup_insert_eq.
Qed.

(** With a credential and a service that answers, [main] completes. *)
Lemma main_total
    (service : OpenAI -> nat -> request -> outcome string) (client : OpenAI)
    (w : world) :
  (forall n req, exists text, service client n req = Ok text) ->
  str_truthy (environ w !! "OPENAI_API_KEY") = true ->
  exists w', main service client w = (Ok tt, w').
Proof.
  intros Hsvc Hkey. unfold main.
  rewrite (bind_Ok (getenv "OPENAI_API_KEY") _ w w _ eq_refl).
  rewrite Hkey. cbn [negb].
  destruct (run_problems_total service client Hsvc PROBLEMS 0 [] 0 0 w
              PROBLEMS_in_range) as ([[results det] maj] & w1 & Hrun).
  rewrite (bind_Ok _ _ _ _ _ Hrun).
  unfold save_results, write_json, print, mbind, M_bind. eauto.
Qed.

(** C5. What the reporter counts in the file written by the evaluator is
    what the evaluator counted: for every sequence of results, the file
    reads back to the numbers of results with each flag; after the loop of
    [main] over any list of problems, to the two scores of the loop; and
    after a completed run of [main], the reporter reports the scores that
    [main] printed. *)
Theorem counts_round_trip :
  (forall (rs : list result) (w : world),
     exists v,
       read_json "problems.json" (snd (save_results rs w))
       = (Ok v, snd (save_results rs w))
       /\ count_correct v
          = Ok (count deterministic_correct rs, count majority_correct rs,
                Z.of_nat (length rs)))
  /\ (forall (service : OpenAI -> nat -> request -> outcome string)
             (client : OpenAI) (todo : list Problem) (w w1 : world)
             (results : list result) (det_score maj_score : Z),
        run_problems service client 0 todo [] 0 0 w
        = (Ok (results, det_score, maj_score), w1) ->
        exists v,
          read_json "problems.json" (snd (save_results results w1))
          = (Ok v, snd (save_results results w1))
          /\ count_correct v
             = Ok (det_score, maj_score, Z.of_nat (length todo)))
  /\ (forall (service : OpenAI -> nat -> request -> outcome string)
             (client : OpenAI) (w w' : world),
        str_truthy (environ w !! "OPENAI_API_KEY") = true ->
        main service client w = (Ok tt, w') ->
        exists det_score maj_score before,
          console w' = (before ++ evaluator_summary det_score maj_score)%list
          /\ create_accuracy_chart w' = report det_score maj_score 10 w').
Proof.
  split; [|split; [|exact main_then_report]].
  - intros rs w. exists (PList (map result_dict rs)).
    split; [apply read_saved_results|apply count_correct_results].
  - intros service client todo w w1 results det maj Hrun.
    apply run_problems_scores in Hrun as (new & -> & Hlen & -> & ->).
    exists (PList (map result_dict new)).
    split; [apply read_saved_results|].
    rewrite count_correct_results, Hlen. reflexivity.
Qed.

Lemma counts_round_trip_witness :
  exists results det_score maj_score w1,
    run_problems (constant "It is 14.") test_client 0 [cars; profit] [] 0 0 blank
    = (Ok (results, det_score, maj_score), w1)
    /\ (det_score, maj_score) = (1, 1)
    /\ exists v,
         read_json "problems.json" (snd (save_results results w1))
         = (Ok v, snd (save_results results w1))
         /\ count_correct v = Ok (det_score, maj_score, 2).
Proof.
  destruct (run_problems _ test_client 0 [cars; profit] [] 0 0 blank)
    as [[[[results det] maj]|e] w1] eqn:Hrun;
    [|vm_compute in Hrun; discriminate Hrun].
  exists results, det, maj, w1. split; [reflexivity|].
  split; [vm_compute in Hrun; injection Hrun as _ <- <- _; reflexivity|].
  apply (proj1 (proj2 counts_round_trip) _ _ _ _ _ _ _ _ Hrun).
Defined.

(** ** The summary of the reporter *)

Lemma report_7_9_10 (w : world) :
  report 7 9 10 w
  = (Ok tt,
     {| environ := environ w;
        files :=
          <["accuracy.png" :=
              Image {| bar_names := ["Deterministic" ++ nl ++ "(temp=0)";
                                     "Majority Vote" ++ nl ++ "(temp=1.1)"];
                       bar_heights := [F64.quotient 7 10; F64.quotient 9 10];
                       bar_colors := ["lightcoral"; "lightblue"];
                       bar_texts := ["70.0%"; "90.0%"];
                       ylabel := "Accuracy";
                       title := "Chain-of-Thought: Deterministic vs Self-Consistency" |}]>
            (files w);
        console := console w ++ summary_7_9_10;
        sent := sent w |}).
Proof.
  unfold report, lift, savefig, print, mbind, M_bind, mret, M_ret.
  change (int_truediv 7 10) with (Ok (F64.quotient 7 10)).
  change (int_truediv 9 10) with (Ok (F64.quotient 9 10)).
  change (int_truediv (9 - 7) 10) with (Ok (F64.quotient 2 10)).
  cbv beta iota. cbn [environ files console sent].
  rewrite <- !app_assoc. reflexivity.
Qed.

(** C6. On a file of ten results, seven with [deterministic_correct] and
    nine with [majority_correct], the reporter prints 70.0%, 90.0% and an
    improvement of +20.0%, and each accuracy is the count divided by the
    number of results. *)
Theorem report_seven_and_nine_of_ten (rs : list result) (w : world) :
  files w !! "problems.json" = Some (Json (PList (map result_dict rs))) ->
  length rs = 10%nat ->
  count deterministic_correct rs = 7 ->
  count majority_correct rs = 9 ->
  exists w' fig,
    create_accuracy_chart w = (Ok tt, w')
    /\ console w' = (console w ++ summary_7_9_10)%list
    /\ files w' = <["accuracy.png" := Image fig]> (files w)
    /\ bar_texts fig = ["70.0%"; "90.0%"]
    /\ map Ok (bar_heights fig) = [int_truediv 7 10; int_truediv 9 10].
Proof.
  intros Hfile Hlen Hdet Hmaj.
  assert (Hrun : create_accuracy_chart w = report 7 9 10 w).
  { rewrite (create_accuracy_chart_loaded _ _ Hfile).
    rewrite count_correct_results, Hlen, Hdet, Hmaj. reflexivity. }
  rewrite Hrun, report_7_9_10.
  eexists _, _. split; [reflexivity|]. cbn [console files bar_texts bar_heights].
  repeat split.
Qed.

Lemma report_seven_and_nine_of_ten_witness :
  files (with_results ten_results) !! "problems.json"
    = Some (Json (PList (map result_dict ten_results)))
  /\ length ten_results = 10%nat
  /\ count deterministic_correct ten_results = 7
  /\ count majority_correct ten_results = 9
  /\ exists w' fig,
       create_accuracy_chart (with_results ten_results) = (Ok tt, w')
       /\ console w' = (console (with_results ten_results) ++ summary_7_9_10)%list
       /\ files w' = <["accuracy.png" := Image fig]> (files (with_results ten_results))
       /\ bar_texts fig = ["70.0%"; "90.0%"]
       /\ map Ok (bar_heights fig) = [int_truediv 7 10; int_truediv 9 10].
Proof.
  split; [reflexivity|]. split; [reflexivity|].
  split; [reflexivity|]. split; [reflexivity|].
  apply (report_seven_and_nine_of_ten ten_results (with_results ten_results));
    reflexivity.
Defined.


(** ** What a run leaves untouched *)

Lemma only_talks_refl (w : world) : only_talks w w.
Proof. repeat split; reflexivity. Qed.

Lemma only_talks_trans (w1 w2 w3 : world) :
  only_talks w1 w2 -> only_talks w2 w3 -> only_talks w1 w3.
Proof.
  intros (He1 & Hf1 & Hc1 & Hs1) (He2 & Hf2 & Hc2 & Hs2).
  repeat split; try congruence; etrans; eassumption.
Qed.

Lemma bind_only_talks {A B : Type} (m : M A) (f : A -> M B) :
  (forall w, only_talks w (snd (m w))) ->
  (forall a w, only_talks w (snd (f a w))) ->
  forall w, only_talks w (snd ((m ≫= f) w)).
Proof.
  intros Hm Hf w. unfold mbind, M_bind.
  specialize (Hm w). destruct (m w) as [[a|e] w1]; cbn [snd] in *; [|exact Hm].
  apply (only_talks_trans _ _ _ Hm), Hf.
Qed.

Lemma print_only_talks (l : line) (w : world) : only_talks w (snd (print l w)).
Proof.
  unfold print; cbn [snd]. repeat split; cbn; [|reflexivity].
  apply prefix_app_r. reflexivity.
Qed.

Lemma lift_only_talks {A : Type} (o : outcome A) (w : world) :
  only_talks w (snd (lift o w)).
Proof. apply only_talks_refl. Qed.

Lemma ret_only_talks {A : Type} (a : A) (w : world) :
  only_talks w (snd ((mret a : M A) w)).
Proof. apply only_talks_refl. Qed.

Section Frames.
Variable service : OpenAI -> nat -> request -> outcome string.
Variable client : OpenAI.

Lemma get_response_only_talks (p : string) (t : number) (w : world) :
  only_talks w (snd (get_response service client p t w)).
Proof.
  unfold get_response; cbn [snd]. repeat split; cbn; [reflexivity|].
  apply prefix_app_r. reflexivity.
Qed.

Lemma sample_answers_only_talks (p : string) (n : nat) (answers : list float)
    (w : world) :
  only_talks w (snd (sample_answers service client p n answers w)).
Proof.
  revert answers w; induction n as [|n IH]; intros answers w; cbn [sample_answers].
  - apply ret_only_talks.
  - apply bind_only_talks; [apply get_response_only_talks|intros response].
    apply bind_only_talks; [apply lift_only_talks|intros answer]. apply IH.
Qed.

Lemma evaluate_problem_only_talks (p : Problem) (w : world) :
  only_talks w (snd (evaluate_problem service client p w)).
Proof.
  unfold evaluate_problem.
  apply bind_only_talks; [apply print_only_talks|intros _].
  apply bind_only_talks; [apply print_only_talks|intros _].
  apply bind_only_talks; [apply get_response_only_talks|intros det_response].
  apply bind_only_talks; [apply lift_only_talks|intros det_answer].
  apply bind_only_talks; [apply lift_only_talks|intros det_correct].
  apply bind_only_talks; [apply print_only_talks|intros _].
  apply bind_only_talks; [apply sample_answers_only_talks|intros answers].
  apply bind_only_talks; [|intros [maj ok]; apply ret_only_talks].
  destruct answers as [|x xs].
  - apply bind_only_talks; [apply print_only_talks|intros _; apply ret_only_talks].
  - apply bind_only_talks; [apply lift_only_talks|intros top].
    apply bind_only_talks; [apply lift_only_talks|intros ok].
    apply bind_only_talks; [apply print_only_talks|intros _].
    apply bind_only_talks; [apply print_only_talks|intros _; apply ret_only_talks].
Qed.

Lemma run_problems_only_talks (todo : list Problem) (i : Z)
    (results : list result) (det maj : Z) (w : world) :
  only_talks w (snd (run_problems service client i todo results det maj w)).
Proof.
  revert i results det maj w.
  induction todo as [|p todo IH]; intros i results det maj; cbn [run_problems].
  - apply ret_only_talks.
  - apply bind_only_talks; [apply print_only_talks|intros _].
    apply bind_only_talks; [apply print_only_talks|intros _].
    apply bind_only_talks; [apply evaluate_problem_only_talks|intros r].
    apply IH.
Qed.

End Frames.

(** ** Where an error can come from *)

Lemma bind_Raise_inv {A B : Type} (m : M A) (f : A -> M B)
    (w w' : world) (e : exn) :
  (m ≫= f) w = (Raise e, w') ->
  m w = (Raise e, w')
  \/ exists a w1, m w = (Ok a, w1) /\ f a w1 = (Raise e, w').
Proof.
  unfold mbind, M_bind. destruct (m w) as [[a|e0] w1]; [eauto|].
  intros [= -> ->]. auto.
Qed.

Lemma print_Raise_inv (l : line) (w w' : world) (e : exn) :
  print l w = (Raise e, w') -> False.
Proof. unfold print. discriminate. Qed.

Lemma lift_Raise_inv {A : Type} (o : outcome A) (w w' : world) (e : exn) :
  lift o w = (Raise e, w') -> o = Raise e.
Proof. unfold lift. intros [= -> _]. reflexivity. Qed.

Lemma ret_Raise_inv {A : Type} (a : A) (w w' : world) (e : exn) :
  (mret a : M A) w = (Raise e, w') -> False.
Proof. unfold mret, M_ret. discriminate. Qed.

Lemma extract_number_Raise_inv (text : string) (e : exn) :
  extract_number text = Raise e -> False.
Proof. destruct (extract_number_total text) as [x ->]. discriminate. Qed.

Lemma within_tolerance_Raise_inv (x : float) (correct : number) (e : exn) :
  within_tolerance x correct = Raise e -> as_float correct = Raise e.
Proof.
  unfold within_tolerance. destruct (as_float correct); [discriminate|].
  simpl. congruence.
Qed.

Section Failures.
Variable service : OpenAI -> nat -> request -> outcome string.
Variable client : OpenAI.

Lemma get_response_Raise_inv (p : string) (t : number) (w w' : world) (e : exn) :
  get_response service client p t w = (Raise e, w') -> service_raised service client e.
Proof. unfold get_response. intros [= H _]. eexists _, _. exact H. Qed.

Lemma sample_answers_Raise_inv (p : string) (n : nat) (answers : list float)
    (w w' : world) (e : exn) :
  sample_answers service client p n answers w = (Raise e, w') ->
  service_raised service client e.
Proof.
  revert answers w; induction n as [|n IH]; intros answers w H;
    cbn [sample_answers] in H.
  - destruct (ret_Raise_inv _ _ _ _ H).
  - apply bind_Raise_inv in H as [H|(response & w1 & _ & H)];
      [apply (get_response_Raise_inv _ _ _ _ _ H)|].
    apply bind_Raise_inv in H as [H|(answer & w2 & _ & H)];
      [apply lift_Raise_inv in H; destruct (extract_number_Raise_inv _ _ H)|].
    apply (IH _ _ H).
Qed.

(** [evaluate_problem] raises only the error of a request, or the overflow
    of a correct answer that is an integer out of the range of the floats. *)
Lemma evaluate_problem_Raise_inv (p : Problem) (w w' : world) (e : exn) :
  evaluate_problem service client p w = (Raise e, w') ->
  service_raised service client e \/ as_float (answer p) = Raise e.
Proof.
  unfold evaluate_problem. intros H.
  apply bind_Raise_inv in H as [H|(u1 & w1 & _ & H)];
    [destruct (print_Raise_inv _ _ _ _ H)|].
  apply bind_Raise_inv in H as [H|(u2 & w2 & _ & H)];
    [destruct (print_Raise_inv _ _ _ _ H)|].
  apply bind_Raise_inv in H as [H|(det_response & w3 & _ & H)];
    [left; apply (get_response_Raise_inv _ _ _ _ _ H)|].
  apply bind_Raise_inv in H as [H|(det_answer & w4 & _ & H)];
    [apply lift_Raise_inv in H; destruct (extract_number_Raise_inv _ _ H)|].
  apply bind_Raise_inv in H as [H|(det_correct & w5 & _ & H)].
  { apply lift_Raise_inv in H. right.
    destruct det_answer as [f|]; simpl in H; [|discriminate].
    destruct (F64.is_zero f); simpl in H; [discriminate|].
    apply (within_tolerance_Raise_inv _ _ _ H). }
  apply bind_Raise_inv in H as [H|(u3 & w6 & _ & H)];
    [destruct (print_Raise_inv _ _ _ _ H)|].
  apply bind_Raise_inv in H as [H|(answers & w7 & _ & H)];
    [left; apply (sample_answers_Raise_inv _ _ _ _ _ _ H)|].
  apply bind_Raise_inv in H as [H|([maj ok] & w8 & _ & H)];
    [|destruct (ret_Raise_inv _ _ _ _ H)].
  destruct answers as [|x xs].
  - apply bind_Raise_inv in H as [H|(u4 & w8 & _ & H)];
      [destruct (print_Raise_inv _ _ _ _ H)|destruct (ret_Raise_inv _ _ _ _ H)].
  - apply bind_Raise_inv in H as [H|(top & w8 & _ & H)].
    { apply lift_Raise_inv in H. rewrite Counter_cons in H. discriminate H. }
    apply bind_Raise_inv in H as [H|(ok & w9 & _ & H)];
      [right; apply lift_Raise_inv in H;
       apply (within_tolerance_Raise_inv _ _ _ H)|].
    apply bind_Raise_inv in H as [H|(u4 & w10 & _ & H)];
      [destruct (print_Raise_inv _ _ _ _ H)|].
    apply bind_Raise_inv in H as [H|(u5 & w11 & _ & H)];
      [destruct (print_Raise_inv _ _ _ _ H)|destruct (ret_Raise_inv _ _ _ _ H)].
Qed.

Lemma run_problems_Raise_inv (todo : list Problem) (i : Z)
    (results : list result) (det maj : Z) (w w' : world) (e : exn) :
  run_problems service client i todo results det maj w = (Raise e, w') ->
  service_raised service client e \/ exists p, In p todo /\ as_float (answer p) = Raise e.
Proof.
  revert i results det maj w.
  induction todo as [|p todo IH]; intros i results det maj w H;
    cbn [run_problems] in H.
  - destruct (ret_Raise_inv _ _ _ _ H).
  - apply bind_Raise_inv in H as [H|(u1 & w1 & _ & H)];
      [destruct (print_Raise_inv _ _ _ _ H)|].
    apply bind_Raise_inv in H as [H|(u2 & w2 & _ & H)];
      [destruct (print_Raise_inv _ _ _ _ H)|].
    apply bind_Raise_inv in H as [H|(r & w3 & _ & H)].
    + apply evaluate_problem_Raise_inv in H as [H|H]; [now left|].
      right. exists p. split; [now left|exact H].
    + apply IH in H as [H|(q & Hq & H)]; [now left|].
      right. exists q. split; [now right|exact H].
Qed.

(** The outcome of [main]: with no credential it only prints; otherwise it
    stops on the error of the loop, having only printed and sent requests,
    or completes with the summary printed and the results saved. *)
Lemma main_outcome (w : world) :
  let out := main service client w in
  (str_truthy (environ w !! "OPENAI_API_KEY") = false
   /\ out = (Ok tt, {| environ := environ w; files := files w;
                       console := console w ++ [credential_message];
                       sent := sent w |}))
  \/ (str_truthy (environ w !! "OPENAI_API_KEY") = true
      /\ exists e w1,
           out = (Raise e, w1) /\ only_talks w w1
           /\ run_problems service client 0 PROBLEMS [] 0 0 w = (Raise e, w1))
  \/ (str_truthy (environ w !! "OPENAI_API_KEY") = true
      /\ exists results det_score maj_score w1,
           run_problems service client 0 PROBLEMS [] 0 0 w
           = (Ok (results, det_score, maj_score), w1)
           /\ only_talks w w1
           /\ out = (Ok tt,
                     {| environ := environ w1;
                        files := <["problems.json" :=
                                    Json (PList (map result_dict results))]>
                                   (files w1);
                        console := console w1
                                   ++ evaluator_summary det_score maj_score;
                        sent := sent w1 |})).
Proof.
  cbv zeta. unfold main.
  rewrite (bind_Ok (getenv "OPENAI_API_KEY") _ w w _ eq_refl).
  destruct (str_truthy (environ w !! "OPENAI_API_KEY")) eqn:Hkey; cbn [negb].
  - right.
    pose proof (run_problems_only_talks service client PROBLEMS 0 [] 0 0 w) as Ht.
    destruct (run_problems service client 0 PROBLEMS [] 0 0 w)
      as [[[[results det] maj]|e] w1] eqn:Hrun; cbn [snd] in Ht.
    + right. split; [reflexivity|]. exists results, det, maj, w1.
      split; [reflexivity|]. split; [exact Ht|].
      rewrite (bind_Ok _ _ _ _ _ Hrun).
      unfold save_results, write_json, print, mbind, M_bind.
      cbn [console files sent environ]. unfold evaluator_summary.
      rewrite <- !app_assoc. reflexivity.
    + left. split; [reflexivity|]. exists e, w1.
      split; [|split; [exact Ht|reflexivity]].
      unfold mbind, M_bind. rewrite Hrun. reflexivity.
  - left. split; reflexivity.
Qed.

End Failures.

(** ** The requests and the files of the evaluator *)

Lemma print_Ok_inv (l : line) (w w' : world) (u : unit) :
  print l w = (Ok u, w') -> sent w' = sent w.
Proof. unfold print. intros [= _ <-]. reflexivity. Qed.

Section Requests.
Variable service : OpenAI -> nat -> request -> outcome string.
Variable client : OpenAI.

Lemma get_response_Ok_inv (p : string) (t : number) (w w' : world)
    (text : string) :
  get_response service client p t w = (Ok text, w') ->
  sent w' = (sent w ++ [request_for p t])%list.
Proof. unfold get_response. intros [= _ <-]. reflexivity. Qed.

Lemma sample_answers_sent (p : string) (n : nat) (answers l : list float)
    (w w' : world) :
  sample_answers service client p n answers w = (Ok l, w') ->
  sent w'
  = (sent w ++ replicate n (request_for p (Float (F64.of_decimal 11 1))))%list.
Proof.
  revert answers w; induction n as [|n IH]; intros answers w H;
    cbn [sample_answers] in H.
  - apply ret_Ok_inv in H as [_ ->]. cbn. now rewrite app_nil_r.
  - apply bind_Ok_inv in H as (response & w1 & Hget & H).
    apply bind_Ok_inv in H as (answer & w2 & Hx & H).
    apply lift_Ok_inv in Hx as [_ ->].
    apply get_response_Ok_inv in Hget.
    rewrite (IH _ _ H), Hget, <- app_assoc. reflexivity.
Qed.

Lemma evaluate_problem_sent (p : Problem) (w w' : world) (r : result) :
  evaluate_problem service client p w = (Ok r, w') ->
  sent w' = (sent w ++ requests_of p)%list.
Proof.
  unfold evaluate_problem. intros H.
  apply bind_Ok_inv in H as (u1 & w1 & H1 & H). apply print_Ok_inv in H1.
  apply bind_Ok_inv in H as (u2 & w2 & H2 & H). apply print_Ok_inv in H2.
  apply bind_Ok_inv in H as (det_response & w3 & H3 & H).
  apply get_response_Ok_inv in H3.
  apply bind_Ok_inv in H as (det_answer & w4 & H4 & H).
  apply lift_Ok_inv in H4 as [_ ->].
  apply bind_Ok_inv in H as (det_correct & w5 & H5 & H).
  apply lift_Ok_inv in H5 as [_ ->].
  apply bind_Ok_inv in H as (u3 & w6 & H6 & H). apply print_Ok_inv in H6.
  apply bind_Ok_inv in H as (answers & w7 & H7 & H).
  apply sample_answers_sent in H7.
  apply bind_Ok_inv in H as ([maj ok] & w8 & H8 & H).
  apply ret_Ok_inv in H as [_ ->].
  assert (Hvote : sent w8 = sent w7).
  { destruct answers as [|x xs].
    - apply bind_Ok_inv in H8 as (u4 & w9 & H9 & H8). apply print_Ok_inv in H9.
      apply ret_Ok_inv in H8 as [_ ->]. exact H9.
    - apply bind_Ok_inv in H8 as (top & w9 & H9 & H8).
      apply lift_Ok_inv in H9 as [_ ->].
      apply bind_Ok_inv in H8 as (ok' & w10 & H10 & H8).
      apply lift_Ok_inv in H10 as [_ ->].
      apply bind_Ok_inv in H8 as (u4 & w11 & H11 & H8). apply print_Ok_inv in H11.
      apply bind_Ok_inv in H8 as (u5 & w12 & H12 & H8). apply print_Ok_inv in H12.
      apply ret_Ok_inv in H8 as [_ ->]. congruence. }
  rewrite Hvote, H7, H6, H3, H2, H1. unfold requests_of.
  rewrite <- app_assoc. reflexivity.
Qed.

(** The loop of [main]: one result per problem, in order, each with the
    text and the answer of its problem, and the requests of the problems
    one after the other. *)
Lemma run_problems_trace (todo : list Problem) (i : Z) (results : list result)
    (det maj : Z) (w w' : world) (results' : list result) (det' maj' : Z) :
  run_problems service client i todo results det maj w
  = (Ok (results', det', maj'), w') ->
  exists new,
    (results' = results ++ new)%list
    /\ map problem_text new = map problem todo
    /\ map correct_answer new = map answer todo
    /\ sent w' = (sent w ++ concat (map requests_of todo))%list.
Proof.
  revert i results det maj w.
  induction todo as [|p todo IH]; intros i results det maj w H;
    cbn [run_problems] in H.
  - apply ret_Ok_inv in H as [[= -> -> ->] ->].
    exists []. cbn. rewrite !app_nil_r. auto.
  - apply bind_Ok_inv in H as (u1 & w1 & H1 & H). apply print_Ok_inv in H1.
    apply bind_Ok_inv in H as (u2 & w2 & H2 & H). apply print_Ok_inv in H2.
    apply bind_Ok_inv in H as (r & w3 & Hr & H).
    pose proof (evaluate_problem_sent _ _ _ _ Hr) as Hsent.
    destruct (evaluate_problem_inv _ _ _ _ _ _ Hr)
      as (_ & _ & Htext & Hanswer & _).
    apply IH in H as (new & -> & Htexts & Hanswers & Hsent').
    exists (r :: new). rewrite <- app_assoc. cbn [map concat].
    rewrite Htext, Hanswer, Htexts, Hanswers, Hsent', Hsent, H2, H1.
    rewrite <- !app_assoc. auto.
Qed.

End Requests.

(** X1. A completed call of [evaluate_problem] has sent eleven requests and
    no other: one at temperature 0, then ten at temperature 1.1, each to the
    model gpt-3.5-turbo with at most 300 tokens and the prompt built from
    the text of the problem; it wrote no file and left the environment. *)
Theorem evaluate_problem_requests
    (service : OpenAI -> nat -> request -> outcome string) (client : OpenAI)
    (p : Problem) (w w' : world) (r : result) :
  evaluate_problem service client p w = (Ok r, w') ->
  sent w' = (sent w ++ requests_of p)%list
  /\ length (requests_of p) = 11%nat
  /\ files w' = files w
  /\ environ w' = environ w.
Proof.
  intros Hrun. split; [apply (evaluate_problem_sent _ _ _ _ _ _ Hrun)|].
  split; [reflexivity|].
  pose proof (evaluate_problem_only_talks service client p w) as Ht.
  rewrite Hrun in Ht. destruct Ht as (He & Hf & _). auto.
Qed.

Lemma evaluate_problem_requests_witness :
  exists r w',
    evaluate_problem (constant "35 * 2 / 5 = 14") test_client cars blank
    = (Ok r, w')
    /\ sent w' = (sent blank ++ requests_of cars)%list
    /\ length (requests_of cars) = 11%nat
    /\ files w' = files blank
    /\ environ w' = environ blank.
Proof.
  destruct (evaluate_problem _ test_client cars blank) as [[r|e] w'] eqn:Hrun;
    [|vm_compute in Hrun; discriminate Hrun].
  exists r, w'. split; [reflexivity|].
  apply (evaluate_problem_requests _ _ _ _ _ _ Hrun).
Defined.

(** X2. A completed run of [main] with a credential has sent the requests
    of the ten problems in their order, 110 in all, and has written to
    problems.json ten results, in the order of the problems, each with the
    text and the answer of its problem. *)
Theorem main_saves_ten_results
    (service : OpenAI -> nat -> request -> outcome string) (client : OpenAI)
    (w w' : world) :
  str_truthy (environ w !! "OPENAI_API_KEY") = true ->
  main service client w = (Ok tt, w') ->
  exists results,
    files w' = <["problems.json" := Json (PList (map result_dict results))]>
                 (files w)
    /\ map problem_text results = map problem PROBLEMS
    /\ map correct_answer results = map answer PROBLEMS
    /\ length results = 10%nat
    /\ sent w' = (sent w ++ concat (map requests_of PROBLEMS))%list
    /\ length (concat (map requests_of PROBLEMS)) = 110%nat.
Proof.
  intros Hkey Hmain.
  destruct (main_outcome service client w)
    as [(Hk & _)|[(_ & e & w1 & Hout & _)|(_ & results & det & maj & w1 & Hrun & Ht & Hout)]];
    cbv zeta in *; try congruence.
  rewrite Hmain in Hout. injection Hout as ->.
  apply run_problems_trace in Hrun as (new & -> & Htexts & Hanswers & Hsent).
  destruct Ht as (_ & Hf & _).
  exists new. cbn [files sent app]. rewrite Hf.
  split; [reflexivity|]. split; [exact Htexts|]. split; [exact Hanswers|].
  split; [|split; [exact Hsent|reflexivity]].
  rewrite <- (length_map problem_text), Htexts. reflexivity.
Qed.

Lemma main_saves_ten_results_witness :
  str_truthy (environ keyed !! "OPENAI_API_KEY") = true
  /\ exists w',
       main (constant "It is 14.") test_client keyed = (Ok tt, w')
       /\ exists results,
            files w' = <["problems.json" :=
                          Json (PList (map result_dict results))]> (files keyed)
            /\ map problem_text results = map problem PROBLEMS
            /\ map correct_answer results = map answer PROBLEMS
            /\ length results = 10%nat
            /\ sent w' = (sent keyed ++ concat (map requests_of PROBLEMS))%list
            /\ length (concat (map requests_of PROBLEMS)) = 110%nat.
Proof.
  assert (Hkey : str_truthy (environ keyed !! "OPENAI_API_KEY") = true)
    by reflexivity.
  split; [exact Hkey|].
  destruct (main (constant "It is 14.") test_client keyed)
    as [[[]|e] w'] eqn:Hmain; [|vm_compute in Hmain; discriminate Hmain].
  exists w'. split; [reflexivity|].
  apply (main_saves_ten_results _ _ _ _ Hkey Hmain).
Defined.



(** X4. Whatever its outcome, a run of [main] leaves the environment, only
    adds to the lines printed and to the requests sent, and changes no file
    other than problems.json. *)
Theorem main_touches_only_results
    (service : OpenAI -> nat -> request -> outcome string) (client : OpenAI)
    (w : world) :
  environ (snd (main service client w)) = environ w
  /\ console w `prefix_of` console (snd (main service client w))
  /\ sent w `prefix_of` sent (snd (main service client w))
  /\ forall name : string,
       name <> "problems.json" ->
       files (snd (main service client w)) !! name = files w !! name.
Proof.
  destruct (main_outcome service client w)
    as [(_ & Hout)|[(_ & e' & w1 & Hout & Ht & _)|(_ & rs & d & m & w1 & _ & Ht & Hout)]];
    cbv zeta in *; rewrite Hout; cbn [snd environ console sent files].
  - split; [reflexivity|]. split; [apply prefix_app_r; reflexivity|].
    split; [reflexivity|]. reflexivity.
  - destruct Ht as (He & Hf & Hc & Hs). rewrite Hf. auto.
  - destruct Ht as (He & Hf & Hc & Hs). rewrite Hf.
    split; [exact He|]. split; [apply prefix_app_r; exact Hc|].
    split; [exact Hs|]. intros name Hname.
    apply lookup_insert_ne. congruence.
Qed.

Lemma main_touches_only_results_witness :
  "accuracy.png" <> "problems.json"
  /\ files (snd (main (constant "It is 14.") test_client keyed)) !! "accuracy.png"
     = files keyed !! "accuracy.png".
Proof.
  assert (Hne : "accuracy.png" <> "problems.json") by discriminate.
  split; [exact Hne|].
  apply (proj2 (proj2 (proj2
           (main_touches_only_results (constant "It is 14.") test_client keyed)))
           "accuracy.png" Hne).
Defined.



(** ** What the reporter leaves untouched *)

Lemma only_draws_refl (w : world) : only_draws w w.
Proof. unfold only_draws. repeat split; reflexivity. Qed.

Lemma only_draws_trans (w1 w2 w3 : world) :
  only_draws w1 w2 -> only_draws w2 w3 -> only_draws w1 w3.
Proof.
  intros (He1 & Hs1 & Hc1 & Hf1) (He2 & Hs2 & Hc2 & Hf2).
  repeat split; try congruence; [etrans; eassumption|].
  intros name Hname. rewrite Hf2, Hf1 by exact Hname. reflexivity.
Qed.

Lemma bind_only_draws {A B : Type} (m : M A) (f : A -> M B) :
  (forall w, only_draws w (snd (m w))) ->
  (forall a w, only_draws w (snd (f a w))) ->
  forall w, only_draws w (snd ((m ≫= f) w)).
Proof.
  intros Hm Hf w. unfold mbind, M_bind.
  specialize (Hm w). destruct (m w) as [[a|e] w1]; cbn [snd] in *; [|exact Hm].
  apply (only_draws_trans _ _ _ Hm), Hf.
Qed.

Lemma print_only_draws (l : line) (w : world) : only_draws w (snd (print l w)).
Proof.
  unfold print, only_draws; cbn [snd environ sent console files].
  split; [reflexivity|]. split; [reflexivity|].
  split; [apply prefix_app_r; reflexivity|]. reflexivity.
Qed.

Lemma savefig_only_draws (c : chart) (w : world) :
  only_draws w (snd (savefig "accuracy.png" c w)).
Proof.
  unfold savefig, only_draws; cbn [snd environ sent console files].
  split; [reflexivity|]. split; [reflexivity|]. split; [reflexivity|].
  intros name Hname. apply lookup_insert_ne. congruence.
Qed.

Lemma report_only_draws (det maj total : Z) (w : world) :
  only_draws w (snd (report det maj total w)).
Proof.
  revert w. unfold report.
  apply bind_only_draws; [intros w; apply only_draws_refl|intros det_score].
  apply bind_only_draws; [intros w; apply only_draws_refl|intros maj_score].
  apply bind_only_draws; [intros w; apply savefig_only_draws|intros _].
  apply bind_only_draws; [intros w; apply print_only_draws|intros _].
  apply bind_only_draws; [intros w; apply only_draws_refl|intros improvement].
  apply bind_only_draws; [intros w; apply print_only_draws|intros _].
  apply bind_only_draws; [intros w; apply only_draws_refl|intros det_ratio].
  apply bind_only_draws; [intros w; apply print_only_draws|intros _].
  apply bind_only_draws; [intros w; apply only_draws_refl|intros maj_ratio].
  apply bind_only_draws; [intros w; apply print_only_draws|intros _].
  intros w; apply print_only_draws.
Qed.

(** X6. Whatever its outcome and whatever the files hold, a run of the
    reporter sends no request, leaves the environment, only adds to the
    lines printed, and changes no file other than accuracy.png: the results
    file is never modified. *)
Theorem reporter_touches_only_image (w : world) :
  environ (snd (create_accuracy_chart w)) = environ w
  /\ sent (snd (create_accuracy_chart w)) = sent w
  /\ console w `prefix_of` console (snd (create_accuracy_chart w))
  /\ forall name : string,
       name <> "accuracy.png" ->
       files (snd (create_accuracy_chart w)) !! name = files w !! name.
Proof.
  change (only_draws w (snd (create_accuracy_chart w))).
  revert w. unfold create_accuracy_chart.
  apply bind_only_draws.
  - intros w. unfold try_except_FileNotFoundError, read_json, mbind, M_bind.
    destruct (files w !! "problems.json") as [[v|c|d]|];
      cbn [snd]; try apply only_draws_refl.
    apply print_only_draws.
  - intros [results|] w; [|apply only_draws_refl].
    revert w. apply bind_only_draws; [intros w; apply only_draws_refl|].
    intros [[d m] t] w. apply report_only_draws.
Qed.

Lemma reporter_touches_only_image_witness :
  "problems.json" <> "accuracy.png"
  /\ files (snd (create_accuracy_chart (with_results ten_results)))
       !! "problems.json"
     = files (with_results ten_results) !! "problems.json".
Proof.
  assert (Hne : "problems.json" <> "accuracy.png") by discriminate.
  split; [exact Hne|].
  apply (proj2 (proj2 (proj2
           (reporter_touches_only_image (with_results ten_results))))
           "problems.json" Hne).
Defined.

(** ** The reporter on files it cannot report *)

(** X7. When the results file holds nothing to count (an empty array, an
    empty object or an empty string), the reporter raises
    [ZeroDivisionError] and has printed and written nothing. *)
Theorem reporter_empty_results (w : world) (v : pyval) :
  files w !! "problems.json" = Some (Json v) ->
  len v = Ok 0 ->
  create_accuracy_chart w = (Raise ZeroDivisionError, w).
Proof.
  intros Hfile Hlen. rewrite (create_accuracy_chart_loaded _ _ Hfile).
  destruct v as [| | |s|l|d]; try discriminate Hlen;
    cbn [len] in Hlen; injection Hlen as Hlen.
  - destruct s; [reflexivity|discriminate].
  - destruct l; [reflexivity|discriminate].
  - destruct d; [reflexivity|discriminate].
Qed.

Lemma reporter_empty_results_witness :
  files (with_results []) !! "problems.json" = Some (Json (PList []))
  /\ len (PList []) = Ok 0
  /\ create_accuracy_chart (with_results [])
     = (Raise ZeroDivisionError, with_results []).
Proof.
  split; [reflexivity|]. split; [reflexivity|].
  apply (reporter_empty_results (with_results []) (PList [])); reflexivity.
Defined.

Lemma count_if_all_keys (key : string) (items : list pyval) :
  forallb (has_key key) items = true -> exists n, count_if key items = Ok n.
Proof.
  induction items as [|r items IH]; cbn [forallb count_if]; [eauto|].
  intros H. apply andb_true_iff in H as [Hr Hitems].
  destruct (IH Hitems) as (n & ->).
  destruct r as [| | | | |d]; try discriminate Hr. cbn [has_key getitem] in *.
  destruct (dict_get d key); [|discriminate Hr]. cbn. eauto.
Qed.

Lemma count_if_missing_key (key : string) (items : list pyval) :
  forallb is_dict items = true ->
  forallb (has_key key) items = false ->
  count_if key items = Raise KeyError.
Proof.
  induction items as [|r items IH]; cbn [forallb count_if]; [discriminate|].
  intros Hd Hk. apply andb_true_iff in Hd as [Hr Hitems].
  destruct r as [| | | | |d]; try discriminate Hr. cbn [has_key getitem] in *.
  destruct (dict_get d key); [|reflexivity].
  cbn in Hk |- *. rewrite (IH Hitems Hk). reflexivity.
Qed.

(** X8. When the results file holds an array of objects and one of them
    lacks the key deterministic_correct or the key majority_correct, the
    reporter raises [KeyError] and has printed and written nothing. *)
Theorem reporter_missing_key (w : world) (items : list pyval) :
  files w !! "problems.json" = Some (Json (PList items)) ->
  forallb is_dict items = true ->
  forallb (has_key "deterministic_correct") items
    && forallb (has_key "majority_correct") items = false ->
  create_accuracy_chart w = (Raise KeyError, w).
Proof.
  intros Hfile Hdicts Hkeys.
  rewrite (create_accuracy_chart_loaded _ _ Hfile).
  unfold count_correct. cbn [iter mbind outcome_bind].
  destruct (forallb (has_key "deterministic_correct") items) eqn:Hdet.
  - destruct (count_if_all_keys _ _ Hdet) as (n & ->).
    cbn in Hkeys. rewrite (count_if_missing_key _ _ Hdicts Hkeys). reflexivity.
  - rewrite (count_if_missing_key _ _ Hdicts Hdet). reflexivity.
Qed.

Lemma reporter_missing_key_witness :
  let items := [PDict [("deterministic_correct", PBool true);
                       ("majority_correct", PBool true)];
                PDict [("deterministic_correct", PBool false)]] in
  let w := {| environ := ∅; files := {["problems.json" := Json (PList items)]};
              console := []; sent := [] |} in
  files w !! "problems.json" = Some (Json (PList items))
  /\ forallb is_dict items = true
  /\ forallb (has_key "deterministic_correct") items
       && forallb (has_key "majority_correct") items = false
  /\ create_accuracy_chart w = (Raise KeyError, w).
Proof.
  cbv zeta. split; [reflexivity|]. split; [reflexivity|]. split; [reflexivity|].
  apply reporter_missing_key
    with (items := [PDict [("deterministic_correct", PBool true);
                           ("majority_correct", PBool true)];
                    PDict [("deterministic_correct", PBool false)]]);
    reflexivity.
Defined.

(** ** The evaluator and the reporter agree *)

Lemma count_bounds {A : Type} (f : A -> bool) (l : list A) :
  0 <= count f l <= Z.of_nat (length l).
Proof. unfold count. pose proof (List.filter_length_le f l). lia. Qed.

(** The reporter from the three quotients, when they exist. *)
Lemma report_Ok (det maj total : Z) (a b c : float) (w : world) :
  int_truediv det total = Ok a ->
  int_truediv maj total = Ok b ->
  int_truediv (maj - det) total = Ok c ->
  report det maj total w
  = (Ok tt,
     {| environ := environ w;
        files :=
          <["accuracy.png" :=
              Image {| bar_names := ["Deterministic" ++ nl ++ "(temp=0)";
                                     "Majority Vote" ++ nl ++ "(temp=1.1)"];
                       bar_heights := [a; b];
                       bar_colors := ["lightcoral"; "lightblue"];
                       bar_texts := [format_percent false a;
                                     format_percent false b];
                       ylabel := "Accuracy";
                       title := "Chain-of-Thought: Deterministic vs Self-Consistency" |}]>
            (files w);
        console :=
          console w
          ++ [[Text "Accuracy chart saved as accuracy.png"];
              [Text (nl ++ "Accuracy Results:")];
              [Text ("Deterministic: " ++ str_Z det ++ "/" ++ str_Z total
                     ++ " (" ++ format_percent false a ++ ")")];
              [Text ("Majority Vote: " ++ str_Z maj ++ "/" ++ str_Z total
                     ++ " (" ++ format_percent false b ++ ")")];
              [Text ("Improvement: " ++ format_percent true c)]];
        sent := sent w |}).
Proof.
  intros Ha Hb Hc.
  unfold report, lift, savefig, print, mbind, M_bind, mret, M_ret.
  rewrite Ha, Hb, Hc. cbv beta iota. cbn [environ files console sent map].
  rewrite <- !app_assoc. reflexivity.
Qed.

(** Out of ten, the percentages of the reporter are those of the evaluator
    with one decimal. *)
Lemma tenths_percent (k : Z) :
  -10 <= k <= 10 ->
  int_truediv k 10 = Ok (F64.quotient k 10)
  /\ format_percent true (F64.quotient k 10) = str_Z_signed (k * 10) ++ ".0%"
  /\ (0 <= k ->
      format_percent false (F64.quotient k 10) = str_Z (k * 10) ++ ".0%").
Proof.
  intros Hk.
  assert (H : In k [-10; -9; -8; -7; -6; -5; -4; -3; -2; -1; 0;
                    1; 2; 3; 4; 5; 6; 7; 8; 9; 10]) by (simpl; lia).
  simpl in H.
  repeat (destruct H as [<-|H];
          [split; [reflexivity|split; [reflexivity|]];
           first [intros _; reflexivity|intros Hneg; lia]|]).
  destruct H.
Qed.

(** X9. After a completed run of [main], the reporter completes on the
    world that [main] left: it saves the chart and prints, for the scores
    out of ten that [main] printed, the same percentages with one decimal
    and the same signed improvement. *)
Theorem reporter_after_main
    (service : OpenAI -> nat -> request -> outcome string) (client : OpenAI)
    (w w' : world) :
  str_truthy (environ w !! "OPENAI_API_KEY") = true ->
  main service client w = (Ok tt, w') ->
  exists det_score maj_score before w'' fig,
    0 <= det_score <= 10 /\ 0 <= maj_score <= 10
    /\ console w' = (before ++ evaluator_summary det_score maj_score)%list
    /\ create_accuracy_chart w' = (Ok tt, w'')
    /\ console w'' = (console w' ++ reporter_summary det_score maj_score)%list
    /\ files w'' = <["accuracy.png" := Image fig]> (files w')
    /\ map Ok (bar_heights fig)
       = [int_truediv det_score 10; int_truediv maj_score 10].
Proof.
  intros Hkey Hmain.
  destruct (main_inv _ _ _ _ Hkey Hmain)
    as (results & det & maj & w1 & Hrun & Hconsole & Hfiles & _).
  apply run_problems_scores in Hrun as (new & -> & Hlen & -> & ->).
  pose proof (count_bounds deterministic_correct new) as Hd.
  pose proof (count_bounds majority_correct new) as Hm.
  rewrite Hlen in Hd, Hm. cbn [length PROBLEMS] in Hd, Hm.
  rewrite !Z.add_0_l in *.
  set (d := count deterministic_correct new) in *.
  set (m := count majority_correct new) in *.
  destruct (tenths_percent d ltac:(lia)) as (Hda & _ & Hdp).
  destruct (tenths_percent m ltac:(lia)) as (Hma & _ & Hmp).
  destruct (tenths_percent (m - d) ltac:(lia)) as (Hia & Hip & _).
  eexists d, m, (console w1), _, _.
  split; [lia|]. split; [lia|]. split; [exact Hconsole|].
  rewrite (create_accuracy_chart_loaded (PList (map result_dict new)))
    by (rewrite Hfiles; apply lookup_insert_eq).
  rewrite count_correct_results, Hlen. cbn [length PROBLEMS Z.of_nat Pos.of_succ_nat Pos.succ].
  rewrite (report_Ok _ _ _ _ _ _ _ Hda Hma Hia).
  split; [reflexivity|]. cbn [console files bar_heights map].
  rewrite Hip, (Hdp ltac:(lia)), (Hmp ltac:(lia)), Hda, Hma.
  split; [|split; reflexivity].
  unfold reporter_summary. rewrite !append_assoc. reflexivity.
Qed.

Lemma reporter_after_main_witness :
  str_truthy (environ keyed !! "OPENAI_API_KEY") = true
  /\ exists w',
       main (constant "It is 14.") test_client keyed = (Ok tt, w')
       /\ exists det_score maj_score before w'' fig,
            0 <= det_score <= 10 /\ 0 <= maj_score <= 10
            /\ console w' = (before ++ evaluator_summary det_score maj_score)%list
            /\ create_accuracy_chart w' = (Ok tt, w'')
            /\ console w''
               = (console w' ++ reporter_summary det_score maj_score)%list
            /\ files w'' = <["accuracy.png" := Image fig]> (files w')
            /\ map Ok (bar_heights fig)
               = [int_truediv det_score 10; int_truediv maj_score 10].
Proof.
  assert (Hkey : str_truthy (environ keyed !! "OPENAI_API_KEY") = true)
    by reflexivity.
  split; [exact Hkey|].
  destruct (main (constant "It is 14.") test_client keyed)
    as [[[]|e] w'] eqn:Hmain; [|vm_compute in Hmain; discriminate Hmain].
  exists w'. split; [reflexivity|].
  apply (reporter_after_main _ _ _ _ Hkey Hmain).
Defined.

(** ** Separators in the text *)

Lemma finds_gap (gap text : string) (toks : list string) :
  has_digit gap = false -> finds text toks -> finds (gap ++ text) toks.
Proof.
  induction gap as [|c gap IH]; cbn [has_digit]; intros Hgap H; [exact H|].
  apply orb_false_iff in Hgap as [Hc Hgap].
  change (String c gap ++ text) with (String c (gap ++ text)).
  apply finds_skip; auto.
Qed.

Lemma maximal_before_separator (tok text : string) (c : ascii) (b : string) :
  is_digit c = false -> c <> "."%char ->
  maximal tok text -> maximal tok (text ++ String c b).
Proof.
  intros Hc Hdot [Hstart Hmax]. destruct text as [|c1 text]; cbn.
  - split; [exact Hc|]. intros _.
    destruct c as [[] [] [] [] [] [] [] []]; try exact I. congruence.
  - split; [exact Hstart|]. intros Hall. specialize (Hmax Hall).
    destruct c1 as [[] [] [] [] [] [] [] []]; try exact I.
    destruct text as [|c2 text]; cbn; [exact Hc|exact Hmax].
Qed.

(** The matches of two texts put together around a separator. *)
Lemma finds_app (a : string) (ta : list string) (c : ascii) (b : string)
    (tb : list string) :
  is_digit c = false -> c <> "."%char ->
  finds a ta -> finds (String c b) tb ->
  finds (a ++ String c b) (ta ++ tb).
Proof.
  intros Hc Hdot Ha Hb.
  induction Ha as [gap Hgap|gap tok n k text toks Hgap Hn Hmax _ IH].
  - apply finds_gap; assumption.
  - rewrite !append_assoc. cbn [app].
    apply (finds_cons gap tok n k); auto using maximal_before_separator.
Qed.

Lemma extract_number_by_last (t1 t2 : string) :
  last (findall t1) = last (findall t2) ->
  extract_number t1 = extract_number t2.
Proof. unfold extract_number. intros ->. reflexivity. Qed.



(** ** More on the vote *)

Section VoteFacts.
Context {A : Type} (key_eqb : A -> A -> bool).
Variable P : A -> Prop.
Hypothesis key_eqb_eq :
  forall x y, P x -> P y -> (key_eqb x y = true <-> x = y).

(** Two different values share the elements of a list. *)
Lemma occurrences_disjoint (m x : A) (xs : list A) :
  P m -> P x -> Forall P xs -> m <> x ->
  occurrences key_eqb m xs + occurrences key_eqb x xs <= Z.of_nat (length xs).
Proof.
  intros Hm Hx Hxs Hne.
  induction Hxs as [|y xs Hy _ IH]; [unfold occurrences; simpl; lia|].
  rewrite !occurrences_cons. cbn [length].
  destruct (key_eqb m y) eqn:Hmy, (key_eqb x y) eqn:Hxy; try lia.
  apply key_eqb_eq in Hmy, Hxy; auto. congruence.
Qed.

End VoteFacts.

(** The sum of the counts, and their sign, for any test of equality. *)
Lemma Counter_total {A : Type} (key_eqb : A -> A -> bool) (xs : list A) :
  total_count (Counter key_eqb xs) = Z.of_nat (length xs)
  /\ Forall (fun kv => 1 <= snd kv) (Counter key_eqb xs).
Proof.
  remember (length xs) as n eqn:Hn.
  revert xs Hn; induction n as [n IH] using lt_wf_ind; intros xs ->.
  destruct xs as [|x xs]; [split; [reflexivity|constructor]|].
  rewrite Counter_cons.
  pose proof (others_length key_eqb x xs) as Hle.
  destruct (IH (length (others key_eqb x xs)) ltac:(simpl; lia) _ eq_refl)
    as (Htotal & Hpos).
  assert (Hsplit : occurrences key_eqb x xs
                   + Z.of_nat (length (others key_eqb x xs))
                   = Z.of_nat (length xs)).
  { unfold occurrences, others. clear.
    induction xs as [|y xs IH]; [reflexivity|].
    cbn [List.filter]. destruct (key_eqb x y); cbn [negb length]; lia. }
  split.
  - unfold total_count in *. cbn [fold_right snd length]. lia.
  - constructor; [|exact Hpos]. cbn [snd].
    unfold occurrences. lia.
Qed.

Lemma eqb_positive (x y : float) :
  F64.eqb x y = true -> F64.nonneg y -> F64.is_zero y = false -> x = y.
Proof.
  unfold F64.eqb, SFeqb.
  destruct x as [sx|sx| |sx mx ex], y as [sy|sy| |sy my ey]; simpl;
    intros H Hy Hz; try discriminate Hz; try contradiction;
    subst sy; simpl in H; try discriminate H.
  all: destruct sx; try discriminate H.
  - reflexivity.
  - change (PosDef.Pos.compare_cont Eq mx my) with (Pos.compare mx my) in H.
    destruct (Z.compare_spec ex ey) as [He|He|He]; try discriminate H.
    destruct (Pos.compare_spec mx my) as [Hm|Hm|Hm]; try discriminate H.
    congruence.
Qed.

Lemma occurrences_positive_In {A : Type} (key_eqb : A -> A -> bool)
    (x : A) (xs : list A) :
  0 < occurrences key_eqb x xs -> exists y, In y xs /\ key_eqb x y = true.
Proof.
  unfold occurrences. intros H.
  destruct (List.filter (key_eqb x) xs) as [|y l] eqn:Hf; [simpl in H; lia|].
  exists y. apply List.filter_In. rewrite Hf. now left.
Qed.

(** X11. An answer that makes up more than half of the retained answers of
    a result is its majority answer. *)
Theorem strict_majority_wins
    (service : OpenAI -> nat -> request -> outcome string) (client : OpenAI)
    (p : Problem) (w w' : world) (r : result) (x : float) :
  evaluate_problem service client p w = (Ok r, w') ->
  Z.of_nat (length (all_answers r))
    < 2 * occurrences F64.eqb x (all_answers r) ->
  majority_answer r = Some x.
Proof.
  intros Hrun Hhalf.
  destruct (all_answers_iff _ _ _ _ _ _ Hrun)
    as (extracted & _ & Hex & Hall & Hiff).
  assert (Hnonneg : Forall F64.nonneg (all_answers r)).
  { rewrite Hall, <- retained_omap. apply retained_nonneg, Hex. }
  destruct (occurrences_positive_In F64.eqb x (all_answers r) ltac:(lia))
    as (y & Hy & Hxy).
  assert (x = y) as <-.
  { apply eqb_positive; [exact Hxy| |apply Hiff, Hy].
    rewrite List.Forall_forall in Hnonneg. auto. }
  pose proof (evaluate_problem_vote _ _ _ _ _ _ Hrun) as Hvote.
  destruct (all_answers r) as [|z zs] eqn:Hzs; [destruct Hy|].
  destruct Hvote as (m & pre & post & Hm & Hsplit & _ & Hmax).
  rewrite Hm. f_equal.
  assert (Hin_m : In m (z :: zs))
    by (rewrite Hsplit; apply in_app_iff; right; now left).
  pose proof (occurrences_disjoint F64.eqb F64.nonneg eqb_nonneg m x (z :: zs))
    as Hdis.
  rewrite List.Forall_forall in Hnonneg.
  destruct (F64.eqb m x) eqn:Hmx;
    [apply eqb_nonneg in Hmx; auto|exfalso].
  assert (Hne : m <> x).
  { intros ->. rewrite (proj2 (eqb_nonneg x x (Hnonneg _ Hy) (Hnonneg _ Hy)))
      in Hmx; [discriminate|reflexivity]. }
  specialize (Hdis (Hnonneg _ Hin_m) (Hnonneg _ Hy)
                   ltac:(apply List.Forall_forall; exact Hnonneg) Hne).
  specialize (Hmax x Hy). lia.
Qed.

Lemma strict_majority_wins_witness :
  exists r w',
    evaluate_problem
      (scripted ["35 / 5 * 2 = 14"; "14"; "14 motorcycles"; "15"; "14"; "20"])
      test_client cars blank = (Ok r, w')
    /\ Z.of_nat (length (all_answers r))
       < 2 * occurrences F64.eqb (F64.of_Z 14) (all_answers r)
    /\ majority_answer r = Some (F64.of_Z 14).
Proof.
  destruct (evaluate_problem _ test_client cars blank) as [[r|e] w'] eqn:Hrun;
    [|vm_compute in Hrun; discriminate Hrun].
  exists r, w'. split; [reflexivity|].
  assert (Hhalf : Z.of_nat (length (all_answers r))
                  < 2 * occurrences F64.eqb (F64.of_Z 14) (all_answers r))
    by (vm_compute in Hrun; injection Hrun as <- _; reflexivity).
  split; [exact Hhalf|].
  apply (strict_majority_wins _ _ _ _ _ _ _ Hrun Hhalf).
Defined.

(** X12. The counter of the vote loses and repeats nothing: for every list
    of answers its counts are at least one and add up to the number of
    answers. *)
Theorem Counter_counts_every_answer (answers : list float) :
  total_count (Counter F64.eqb answers) = Z.of_nat (length answers)
  /\ Forall (fun kv => 1 <= snd kv) (Counter F64.eqb answers).
Proof. apply Counter_total. Qed.

(** ** The answers and the flags of a result *)

Lemma length_omap_le {A B : Type} (f : A -> option B) (l : list A) :
  (length (omap f l) <= length l)%nat.
Proof.
  induction l as [|x l IH]; [reflexivity|].
  cbn [omap list_omap]. destruct (f x); cbn [length]; lia.
Qed.

Lemma positive_compare (f : float) :
  F64.nonneg f -> F64.is_zero f = false -> F64.ltb F64.zero f = true.
Proof.
  destruct f as [s|s| |s m e]; simpl; intros Hs Hz; subst;
    try discriminate; try contradiction; reflexivity.
Qed.

(** X13. The sampled answers of a result are at most ten, and each of them
    is strictly above zero. *)
Theorem all_answers_positive
    (service : OpenAI -> nat -> request -> outcome string) (client : OpenAI)
    (p : Problem) (w w' : world) (r : result) :
  evaluate_problem service client p w = (Ok r, w') ->
  (length (all_answers r) <= 10)%nat
  /\ forall f : float, In f (all_answers r) -> F64.ltb F64.zero f = true.
Proof.
  intros Hrun.
  destruct (all_answers_iff _ _ _ _ _ _ Hrun)
    as (extracted & Hlen & Hex & Hall & Hiff).
  split.
  - rewrite Hall, <- Hlen. apply length_omap_le.
  - intros f Hf. apply positive_compare; [|apply Hiff, Hf].
    pose proof (retained_nonneg _ Hex) as Hnonneg.
    rewrite retained_omap, <- Hall, List.Forall_forall in Hnonneg. auto.
Qed.

Lemma all_answers_positive_witness :
  exists r w',
    evaluate_problem
      (scripted ["35 / 5 * 2 = 14"; "14"; "0"; "15"; "none"; "20"])
      test_client cars blank = (Ok r, w')
    /\ all_answers r = map F64.of_Z [14; 15; 20]
    /\ (length (all_answers r) <= 10)%nat
    /\ forall f : float, In f (all_answers r) -> F64.ltb F64.zero f = true.
Proof.
  destruct (evaluate_problem _ test_client cars blank) as [[r|e] w'] eqn:Hrun;
    [|vm_compute in Hrun; discriminate Hrun].
  exists r, w'. split; [reflexivity|].
  split; [vm_compute in Hrun; injection Hrun as <- _; reflexivity|].
  apply (all_answers_positive _ _ _ _ _ _ Hrun).
Defined.

(** X14. A flag of a result is true only for an answer that is there and
    within the tolerance: [deterministic_correct] only when a deterministic
    answer was extracted and passes the rule, [majority_correct] only when
    there is a majority answer, one of the sampled answers, that passes
    it. *)
Theorem correct_flags_sound
    (service : OpenAI -> nat -> request -> outcome string) (client : OpenAI)
    (p : Problem) (w w' : world) (r : result) :
  evaluate_problem service client p w = (Ok r, w') ->
  (deterministic_correct r = true ->
   exists v, deterministic_answer r = Some v
             /\ within_tolerance v (answer p) = Ok true)
  /\ (majority_correct r = true ->
      exists m, majority_answer r = Some m /\ In m (all_answers r)
                /\ within_tolerance m (answer p) = Ok true).
Proof.
  intros Hrun.
  destruct (evaluate_problem_inv _ _ _ _ _ _ Hrun)
    as (_ & _ & _ & _ & _ & Hrule & _ & _ & _ & Hvote).
  split.
  - intros Hflag. rewrite Hflag in Hrule.
    destruct (deterministic_answer r) as [v|]; [|discriminate Hrule].
    exists v. split; [reflexivity|].
    simpl in Hrule. destruct (F64.is_zero v); [discriminate Hrule|exact Hrule].
  - intros Hflag.
    destruct (all_answers r) as [|x xs] eqn:Hxs;
      [destruct Hvote; congruence|].
    destruct Hvote as (top & _ & Hm & Htol).
    exists (fst top). split; [exact Hm|].
    split; [|congruence].
    rewrite <- Hxs. apply (evaluate_problem_majority_In _ _ _ _ _ _ _ Hrun Hm).
Qed.

Lemma correct_flags_sound_witness :
  exists r w',
    evaluate_problem (constant "35 * 2 / 5 = 14") test_client cars blank
    = (Ok r, w')
    /\ deterministic_correct r = true /\ majority_correct r = true
    /\ (exists v, deterministic_answer r = Some v
                  /\ within_tolerance v (answer cars) = Ok true)
    /\ (exists m, majority_answer r = Some m /\ In m (all_answers r)
                  /\ within_tolerance m (answer cars) = Ok true).
Proof.
  destruct (evaluate_problem _ test_client cars blank) as [[r|e] w'] eqn:Hrun;
    [|vm_compute in Hrun; discriminate Hrun].
  exists r, w'. split; [reflexivity|].
  assert (Hd : deterministic_correct r = true)
    by (vm_compute in Hrun; injection Hrun as <- _; reflexivity).
  assert (Hm : majority_correct r = true)
    by (vm_compute in Hrun; injection Hrun as <- _; reflexivity).
  split; [exact Hd|]. split; [exact Hm|].
  split.
  - apply (proj1 (correct_flags_sound _ _ _ _ _ _ Hrun) Hd).
  - apply (proj2 (correct_flags_sound _ _ _ _ _ _ Hrun) Hm).
Defined.

(** ** The credential and the errors *)

(** X15. A credential that is set but empty counts as missing: [main]
    prints its message and returns, with no request sent and no file
    written. *)
Theorem main_with_blank_credential
    (service : OpenAI -> nat -> request -> outcome string) (client : OpenAI)
    (w : world) :
  environ w !! "OPENAI_API_KEY" = Some "" ->
  main service client w
  = (Ok tt, {| environ := environ w; files := files w;
               console := console w ++ [credential_message];
               sent := sent w |}).
Proof.
  intros Hkey. unfold main, getenv, mbind, M_bind. rewrite Hkey. reflexivity.
Qed.

Lemma main_with_blank_credential_witness :
  let w := {| environ := {["OPENAI_API_KEY" := ""]}; files := ∅;
              console := []; sent := [] |} in
  environ w !! "OPENAI_API_KEY" = Some ""
  /\ main (constant "It is 14.") test_client w
     = (Ok tt, {| environ := environ w; files := files w;
                  console := console w ++ [credential_message];
                  sent := sent w |}).
Proof.
  cbv zeta. split; [reflexivity|].
  apply main_with_blank_credential. reflexivity.
Defined.


